(** * LLM router: multi-provider failover, result cache and provider metrics

    A shallow embedding of [src/02_llm_router/llm_router.py]: the data classes
    ([ProviderMetrics], [Query], [Response]), the fingerprint [Query.hash], and
    the three stateful operations of [LLMRouter] that the routing design rests
    on: [query] (cache lookup, then ordered failover), [health_check] (the
    sweep over all backends) and [clear_cache].

    Python [int] is [Z]; Python [float] is the kernel's binary64 [float], so
    [total_cost += response.cost] is the same IEEE addition; [str] is [string]
    (the UTF-8 bytes); [Optional[T]] is [option T]; the [cache] dictionary is a
    [gmap] keyed by the fingerprint; the [metrics] dictionary, which holds one
    record per member of the closed enumeration [ProviderName] from
    construction on, is a total function updated pointwise.

    The file also covers the selection strategies ([get_cheapest_provider],
    [get_healthiest_provider]), persistence ([save_metrics], [_load_metrics])
    and the three simulated backends the constructor installs. *)

From Stdlib Require Import ZArith QArith Floats.
From stdpp Require Import base decidable countable functions gmap strings list pretty.

Local Open Scope string_scope.
Local Open Scope list_scope.
Local Open Scope Z_scope.

(** ** Data model *)

(** [class ProviderName(Enum)], in declaration order. *)
Inductive ProviderName : Set := GEMINI | CLAUDE | OPENAI.

(** [class ProviderStatus(Enum)]. *)
Inductive ProviderStatus : Set := HEALTHY | DEGRADED | UNHEALTHY.

#[global] Instance ProviderName_eq_dec : EqDecision ProviderName.
Proof. solve_decision. Defined.

#[global] Instance ProviderStatus_eq_dec : EqDecision ProviderStatus.
Proof. solve_decision. Defined.

Definition ProviderName_to_nat (p : ProviderName) : nat :=
  match p with GEMINI => 0 | CLAUDE => 1 | OPENAI => 2 end%nat.

Definition ProviderName_of_nat (n : nat) : option ProviderName :=
  match n with
  | O => Some GEMINI
  | S O => Some CLAUDE
  | S (S O) => Some OPENAI
  | _ => None
  end.

#[global] Instance ProviderName_countable : Countable ProviderName.
Proof.
  apply (inj_countable ProviderName_to_nat ProviderName_of_nat).
  intros []; reflexivity.
Defined.

(** [ProviderName.value]: the string each member carries. *)
Definition value (p : ProviderName) : string :=
  match p with GEMINI => "gemini" | CLAUDE => "claude" | OPENAI => "openai" end.

(** [@dataclass ProviderMetrics]. *)
Record ProviderMetrics : Type := mkProviderMetrics {
  name : ProviderName;
  status : ProviderStatus;
  requests_total : Z;
  requests_success : Z;
  requests_failed : Z;
  total_cost : float;
  avg_latency_ms : float;
  last_error : option string;
  last_checked : string
}.

(** [@dataclass Query]. *)
Record Query : Type := mkQuery {
  text : string;
  model : option string;
  temperature : float;
  max_tokens : Z;
  system_prompt : option string
}.

(** [@dataclass Response]; its [text] field is [response_text] here, the name
    [text] being taken by [Query]. *)
Record Response : Type := mkResponse {
  response_text : string;
  provider : ProviderName;
  tokens_used : Z;
  cost : float;
  latency_ms : float;
  timestamp : string
}.

(** What [query] raises itself: [RuntimeError(msg)]. *)
Inductive Exn : Type := RuntimeError (msg : string).

(** ** The queries whose fingerprint can be computed

    [Query.hash] formats [max_tokens] in decimal and encodes the formatted
    text as UTF-8.  The interpreter refuses to print an integer of more than
    4300 digits ([ValueError]) and to encode a text that holds a surrogate
    code point ([UnicodeEncodeError]); for such a query every call of
    [Query.hash] raises.  [hashable q] says that neither happens.  A text is
    held here as bytes, surrogates in their three-byte form, so a text is
    free of surrogates exactly when its bytes are well-formed UTF-8.

    The embedding of [query] below follows the code for the queries that are
    [hashable], where [Query.hash] returns; the statements that depend on a
    fingerprint having been computed carry [hashable] as a hypothesis.  The
    call for every query, with the two places where [Query.hash] can raise,
    is [Full.query]; the two agree on the [hashable] queries
    ([Full_query_hashable]). *)

Definition byte_in (lo hi : N) (a : Ascii.ascii) : bool :=
  ((lo <=? Ascii.N_of_ascii a) && (Ascii.N_of_ascii a <=? hi))%N.

(** The range of the second byte of a three-byte and of a four-byte
    sequence, by its first byte. *)
Definition second_of_three (a b : Ascii.ascii) : bool :=
  if byte_in 224 224 a then byte_in 160 191 b
  else if byte_in 237 237 a then byte_in 128 159 b
  else byte_in 128 191 b.

Definition second_of_four (a b : Ascii.ascii) : bool :=
  if byte_in 240 240 a then byte_in 144 191 b
  else if byte_in 244 244 a then byte_in 128 143 b
  else byte_in 128 191 b.

(** Well-formed UTF-8 (the table of the Unicode standard): no overlong
    form, no surrogate, nothing above U+10FFFF. *)
Fixpoint utf8_valid (t : string) : bool :=
  match t with
  | EmptyString => true
  | String a t1 =>
      if byte_in 0 127 a then utf8_valid t1
      else
        match t1 with
        | EmptyString => false
        | String b t2 =>
            if byte_in 194 223 a then byte_in 128 191 b && utf8_valid t2
            else
              match t2 with
              | EmptyString => false
              | String c t3 =>
                  if byte_in 224 239 a
                  then second_of_three a b && byte_in 128 191 c && utf8_valid t3
                  else
                    match t3 with
                    | EmptyString => false
                    | String d t4 =>
                        byte_in 240 244 a && second_of_four a b
                        && byte_in 128 191 c && byte_in 128 191 d && utf8_valid t4
                    end
              end
        end
  end.

Definition hashable (q : Query) : bool :=
  (Z.abs (max_tokens q) <? 10 ^ 4300) && utf8_valid (text q).

Arguments hashable : simpl never.

(** ** Derived metrics

    [success_rate] divides two Python integers; true division returns the
    double nearest to the exact quotient, and the model keeps that exact
    quotient as a rational.  The constants [1.0], [0.5] and [0.0] are exact. *)

Definition success_rate (m : ProviderMetrics) : Q :=
  if requests_total m =? 0 then 1%Q
  else (inject_Z (requests_success m) / inject_Z (requests_total m))%Q.

Definition availability (m : ProviderMetrics) : Q :=
  match status m with
  | UNHEALTHY => 0%Q
  | DEGRADED => (1 # 2)%Q
  | HEALTHY => success_rate m
  end.

(** ** Field updates of a metrics record *)

(** [m.status = st] *)
Definition set_status (st : ProviderStatus) (m : ProviderMetrics) : ProviderMetrics :=
  {| name := name m; status := st;
     requests_total := requests_total m;
     requests_success := requests_success m;
     requests_failed := requests_failed m;
     total_cost := total_cost m;
     avg_latency_ms := avg_latency_ms m;
     last_error := last_error m;
     last_checked := last_checked m |}.

(** The three statements under [# Update metrics] in the [try] body:
    [requests_total += 1; requests_success += 1; total_cost += response.cost]. *)
Definition update_metrics (response : Response) (m : ProviderMetrics) : ProviderMetrics :=
  {| name := name m; status := status m;
     requests_total := requests_total m + 1;
     requests_success := requests_success m + 1;
     requests_failed := requests_failed m;
     total_cost := PrimFloat.add (total_cost m) (cost response);
     avg_latency_ms := avg_latency_ms m;
     last_error := last_error m;
     last_checked := last_checked m |}.

(** The two statements of the [except] handler:
    [requests_failed += 1; last_error = str(e)]. *)
Definition record_failure (e : string) (m : ProviderMetrics) : ProviderMetrics :=
  {| name := name m; status := status m;
     requests_total := requests_total m;
     requests_success := requests_success m;
     requests_failed := requests_failed m + 1;
     total_cost := total_cost m;
     avg_latency_ms := avg_latency_ms m;
     last_error := Some e;
     last_checked := last_checked m |}.

(** ** The router over its collaborators *)

(** What the router exchanged with a backend, in call order.  The router keeps
    no such log; it is the observer's record of which backends were invoked
    and what each answered ([inl e]: the call raised an exception whose [str]
    is [e]). *)
Inductive Event : Type :=
  | Invoked (p : ProviderName) (q : Query) (o : string + Response)
  | Probed (p : ProviderName) (o : string + bool).

(** [class ProviderBackend(ABC)]: the interface the router consumes.  The
    backends are opaque: [World] is whatever they and the services behind them
    hold; [backend_query p] is [self.providers[p].query],
    [backend_health_check p] is [self.providers[p].health_check]; either may
    raise ([inl]) and may change the world. *)
Class ProviderBackend (World : Type) : Type := {
  backend_query : ProviderName -> Query -> World -> (string + Response) * World;
  backend_health_check : ProviderName -> World -> (string + bool) * World;
  cost_per_1k_tokens : ProviderName -> float
}.

(** Library functions [Query.hash] calls: [hashlib.md5(s.encode()).hexdigest()]
    and the text an f-string gives a float. *)
Class PyLib : Type := {
  md5_hexdigest : string -> string;
  float_str : float -> string
}.

Section Router.

Context {World : Type} `{!ProviderBackend World} `{!PyLib}.

(** [Query.hash]: [f"{self.text}_{self.temperature}_{self.max_tokens}"],
    digested.  This is the value [Query.hash] returns for a [hashable]
    query. *)
Definition hash (q : Query) : string :=
  md5_hexdigest
    (text q +:+ "_" +:+ float_str (temperature q) +:+ "_" +:+ pretty (max_tokens q)).

(** The router object ([metrics], [cache]) together with the world it runs
    in and the observer's log. *)
Record State : Type := mkState {
  metrics : ProviderName -> ProviderMetrics;
  cache : gmap string Response;
  world : World;
  history : list Event
}.

Definition with_metrics (f : ProviderName -> ProviderMetrics) (s : State) : State :=
  {| metrics := f; cache := cache s; world := world s; history := history s |}.

Definition with_cache (c : gmap string Response) (s : State) : State :=
  {| metrics := metrics s; cache := c; world := world s; history := history s |}.

(** [provider.query(query)], logged. *)
Definition call_query (p : ProviderName) (q : Query) (s : State)
  : (string + Response) * State :=
  let '(o, w) := backend_query p q (world s) in
  (o, {| metrics := metrics s; cache := cache s; world := w;
         history := history s ++ [Invoked p q o] |}).

(** [provider.health_check()], logged. *)
Definition call_health_check (p : ProviderName) (s : State)
  : (string + bool) * State :=
  let '(o, w) := backend_health_check p (world s) in
  (o, {| metrics := metrics s; cache := cache s; world := w;
         history := history s ++ [Probed p o] |}).

(** The rest of the [try] body after a backend answered: update the
    metrics of [p], then [self.cache[query.hash()] = response]. *)
Definition on_success (p : ProviderName) (q : Query) (response : Response)
    (s : State) : State :=
  {| metrics := <[p := update_metrics response (metrics s p)]> (metrics s);
     cache := <[hash q := response]> (cache s);
     world := world s; history := history s |}.

(** The [except Exception as e] handler up to its test. *)
Definition on_failure (p : ProviderName) (e : string) (s : State) : State :=
  with_metrics (<[p := record_failure e (metrics s p)]> (metrics s)) s.

(** [for provider_name in providers: ...] over what is left of the list,
    [providers] being the whole list, which the handler reads as
    [providers[-1]].  A loop that runs out falls through to the last line
    of [query].  The handler is entered by a backend that raises; for a
    [hashable] query nothing else in the [try] body can raise. *)
Fixpoint try_providers (q : Query) (providers rest : list ProviderName)
    (s : State) : (Exn + Response) * State :=
  match rest with
  | [] => (inl (RuntimeError "No providers available"), s)
  | provider_name :: rest' =>
      match call_query provider_name q s with
      | (inr response, s1) => (inr response, on_success provider_name q response s1)
      | (inl e, s1) =>
          let s2 := on_failure provider_name e s1 in
          if bool_decide (last providers = Some provider_name)
          then (inl (RuntimeError ("All providers failed: " +:+ e)), s2)
          else try_providers q providers rest' s2
      end
  end.

(** [LLMRouter._get_default_providers]. *)
Definition _get_default_providers : list ProviderName := [GEMINI; CLAUDE; OPENAI].

(** [LLMRouter.query]; [q] is the [Query(text=text, **kwargs)] built on
    entry, [providers = None] asks for the default order. *)
Definition query (q : Query) (providers : option (list ProviderName))
    (use_cache : bool) (s : State) : (Exn + Response) * State :=
  match (if use_cache then cache s !! hash q else None) with
  | Some cached => (inr cached, s)
  | None =>
      let providers := default _get_default_providers providers in
      try_providers q providers providers s
  end.

(** One turn of the loop of [health_check] for the item
    [(provider_name, provider)]. *)
Definition check_provider (acc : gmap ProviderName bool * State)
    (provider_name : ProviderName) : gmap ProviderName bool * State :=
  let '(health, s) := acc in
  match call_health_check provider_name s with
  | (inr is_healthy, s1) =>
      (<[provider_name := is_healthy]> health,
       with_metrics
         (<[provider_name :=
              set_status (if is_healthy then HEALTHY else UNHEALTHY)
                         (metrics s1 provider_name)]> (metrics s1)) s1)
  | (inl e, s1) =>
      (<[provider_name := false]> health,
       with_metrics
         (<[provider_name := set_status UNHEALTHY (metrics s1 provider_name)]>
            (metrics s1)) s1)
  end.

(** [LLMRouter.health_check]: [self.providers.items()] yields the backends
    in the order the constructor inserted them. *)
Definition health_check (s : State) : gmap ProviderName bool * State :=
  foldl check_provider (∅, s) [GEMINI; CLAUDE; OPENAI].

(** [LLMRouter.clear_cache] and [LLMRouter.get_cache_size]. *)
Definition clear_cache (s : State) : State := with_cache ∅ s.

Definition get_cache_size (s : State) : nat := size (cache s).

(** [LLMRouter.__init__] when nothing was persisted: one default
    [ProviderMetrics(name=name)] per provider and an empty cache.  [now] is
    the [datetime.now().isoformat()] of the default factory, read here at
    one instant for the three records; the statements about [last_checked]
    speak of each record's own value. *)
Definition fresh_metrics (now : string) (p : ProviderName) : ProviderMetrics :=
  {| name := p; status := HEALTHY;
     requests_total := 0; requests_success := 0; requests_failed := 0;
     total_cost := 0%float; avg_latency_ms := 0%float;
     last_error := None; last_checked := now |}.

Definition init (now : string) (w : World) : State :=
  {| metrics := fresh_metrics now; cache := ∅; world := w; history := [] |}.

(** A caller's use of the router: any sequence of these calls. *)
Inductive Call : Type :=
  | CallQuery (q : Query) (providers : option (list ProviderName)) (use_cache : bool)
  | CallHealthCheck
  | CallClearCache.

Definition step (s : State) (c : Call) : State :=
  match c with
  | CallQuery q providers use_cache => (query q providers use_cache s).2
  | CallHealthCheck => (health_check s).2
  | CallClearCache => clear_cache s
  end.

Definition run (calls : list Call) (s : State) : State := foldl step s calls.

(** *** Vocabulary of the statements *)

(** The state the loop is in after every candidate of [pre] was invoked in
    turn and raised; [None] when one of them answers instead. *)
Fixpoint fail_run (q : Query) (pre : list ProviderName) (s : State) : option State :=
  match pre with
  | [] => Some s
  | p :: pre' =>
      match call_query p q s with
      | (inl e, s1) => fail_run q pre' (on_failure p e s1)
      | (inr _, _) => None
      end
  end.

(** What an operation added to the log: the events of [s'] past those of [s]. *)
Definition events_since (s s' : State) : list Event :=
  drop (length (history s)) (history s').

End Router.

(** A call whose query, if it has one, is [hashable]. *)
Definition hashable_call (c : Call) : bool :=
  match c with
  | CallQuery q _ _ => hashable q
  | CallHealthCheck | CallClearCache => true
  end.

(** The backend an event is about. *)
Definition target (ev : Event) : ProviderName :=
  match ev with Invoked p _ _ => p | Probed p _ => p end.

(** What the sweep reports for a probe outcome: its answer, [False] when it
    raised. *)
Definition reported (o : string + bool) : bool :=
  match o with inr is_healthy => is_healthy | inl _ => false end.

(** ** Test doubles

    The tests replace a backend's methods with mocks
    ([patch.object(..., side_effect=Exception("Failed"))]).  The double below
    plays a script: each call to any backend consumes the next entry, and a
    script that ran out answers normally. *)
Inductive Scripted : Type :=
  | Raises (e : string)
  | Returns
  | ReturnsFalse.

Definition canned (p : ProviderName) (q : Query) : Response :=
  {| response_text := "[" +:+ value p +:+ " response to: " +:+ text q +:+ "...]";
     provider := p;
     tokens_used := 2;
     cost := 0.5%float;
     latency_ms := 150%float;
     timestamp := "2025-01-01T00:00:00" |}.

#[global] Instance scripted_backend : ProviderBackend (list Scripted) := {|
  backend_query p q w :=
    match w with
    | Raises e :: w' => (inl e, w')
    | _ :: w' => (inr (canned p q), w')
    | [] => (inr (canned p q), [])
    end;
  backend_health_check p w :=
    match w with
    | Raises e :: w' => (inl e, w')
    | ReturnsFalse :: w' => (inr false, w')
    | Returns :: w' => (inr true, w')
    | [] => (inr true, [])
    end;
  cost_per_1k_tokens p :=
    match p with GEMINI => 0.25%float | CLAUDE => 0.5%float | OPENAI => 0.75%float end
|}.

(** A stand-in for the digest and the float formatting: the content itself,
    and a float written as sign, mantissa and exponent. *)
Definition plain_float_str (x : float) : string :=
  match Prim2SF x with
  | S754_zero false => "0.0"
  | S754_zero true => "-0.0"
  | S754_infinity false => "inf"
  | S754_infinity true => "-inf"
  | S754_nan => "nan"
  | S754_finite s m e =>
      (if s then "-" else "") +:+ pretty (Z.pos m) +:+ "p" +:+ pretty e
  end.

#[global] Instance plain_pylib : PyLib := {|
  md5_hexdigest content := content;
  float_str := plain_float_str
|}.

(** Queries and starting states of the scenarios. *)
Definition ask (t : string) (sys : option string) : Query :=
  {| text := t; model := None; temperature := 0.5%float; max_tokens := 2000;
     system_prompt := sys |}.

Definition boot (script : list Scripted) : @State (list Scripted) :=
  init "2025-01-01T00:00:00" script.

(** A caller's list that comes back to its first choice:
    [providers=[ProviderName.GEMINI, ProviderName.CLAUDE, ProviderName.GEMINI]]. *)
Definition retry_list : list ProviderName := [GEMINI; CLAUDE; GEMINI].

(** The call over [retry_list] when only the first invocation raises. *)
Definition retry_first_fails : (Exn + Response) * @State (list Scripted) :=
  query (ask "Test" None) (Some retry_list) true (boot [Raises "Failed"]).

(** The same call when every invocation would raise. *)
Definition retry_all_fail : (Exn + Response) * @State (list Scripted) :=
  query (ask "Test" None) (Some retry_list) true
    (boot [Raises "gemini down"; Raises "claude down"; Raises "gemini still down"]).

(** A fresh router after one call whose only candidate raised. *)
Definition after_failed_call : @State (list Scripted) :=
  run [CallQuery (ask "Test" None) (Some [GEMINI]) true] (boot [Raises "API error"]).

(** That router asked again, the backend now answering. *)
Definition then_answered : (Exn + Response) * @State (list Scripted) :=
  query (ask "Again" None) (Some [GEMINI]) true after_failed_call.

(** A fresh router after [router.query("Same query")]. *)
Definition after_same_query : @State (list Scripted) :=
  run [CallQuery (ask "Same query" None) None true] (boot []).

(** The query of [after_same_query] with another system prompt and model. *)
Definition same_query_other_prompt : Query :=
  {| text := "Same query"; model := Some "gpt-4-turbo"; temperature := 0.5%float;
     max_tokens := 2000; system_prompt := Some "You are helpful" |}.

(** The default order when GEMINI raises and CLAUDE answers. *)
Definition fallback_to_claude : (Exn + Response) * @State (list Scripted) :=
  query (ask "Test" None) None true (boot [Raises "Failed"]).

(** The default order when all three backends raise. *)
Definition all_three_fail : (Exn + Response) * @State (list Scripted) :=
  query (ask "Test" None) None true
    (boot [Raises "gemini down"; Raises "claude down"; Raises "openai down"]).

(** A sweep in which the probe of the second backend raises and the third
    answers [False]. *)
Definition sweep_claude_raises : gmap ProviderName bool * @State (list Scripted) :=
  health_check (boot [Returns; Raises "timeout"; ReturnsFalse]).

(** ** The call in full, for every query

    [query] calls [Query.hash] at two places: before the loop, outside the
    [try], when caching is enabled, and inside the [try], after the metrics
    of the answering backend were updated, to store the response.  For a
    query that is not [hashable] the first call lets the exception leave
    [query], and the second hands it to the handler, which counts the
    backend that answered as failed and moves on.  [Full.query] follows the
    code there too; on the [hashable] queries it is [query]
    ([Full_query_hashable] below). *)

(** [str(e)] of the exception [Query.hash] raises for a query that is not
    [hashable]. *)
Class PyErrors : Type := {
  hash_error : Query -> string
}.

Module Full.

(** What leaves [query]: its own [RuntimeError], or the exception of
    [Query.hash]. *)
Inductive Raised : Type :=
  | Runtime (e : Exn)
  | FromHash (e : string).

Section Full.

Context {World : Type} `{!ProviderBackend World} `{!PyLib} `{!PyErrors}.

(** The [# Update metrics] statements for the backend that answered. *)
Definition count_success (p : ProviderName) (response : Response)
    (s : @State World) : @State World :=
  with_metrics (<[p := update_metrics response (metrics s p)]> (metrics s)) s.

(** The loop of [query], the whole [try] body and its handler. *)
Fixpoint try_providers (q : Query) (providers rest : list ProviderName)
    (s : @State World) : (Raised + Response) * @State World :=
  match rest with
  | [] => (inl (Runtime (RuntimeError "No providers available")), s)
  | provider_name :: rest' =>
      match call_query provider_name q s with
      | (inr response, s1) =>
          if hashable q
          then (inr response, on_success provider_name q response s1)
          else
            let e := hash_error q in
            let s2 := on_failure provider_name e (count_success provider_name response s1) in
            if bool_decide (last providers = Some provider_name)
            then (inl (Runtime (RuntimeError ("All providers failed: " +:+ e))), s2)
            else try_providers q providers rest' s2
      | (inl e, s1) =>
          let s2 := on_failure provider_name e s1 in
          if bool_decide (last providers = Some provider_name)
          then (inl (Runtime (RuntimeError ("All providers failed: " +:+ e))), s2)
          else try_providers q providers rest' s2
      end
  end.

(** [LLMRouter.query]. *)
Definition query (q : Query) (providers : option (list ProviderName))
    (use_cache : bool) (s : @State World) : (Raised + Response) * @State World :=
  if use_cache && negb (hashable q) then (inl (FromHash (hash_error q)), s)
  else
    match (if use_cache then cache s !! hash q else None) with
    | Some cached => (inr cached, s)
    | None =>
        let providers := default _get_default_providers providers in
        try_providers q providers providers s
    end.

(** An outcome of the embedding for [hashable] queries, read as an outcome
    of the full one. *)
Definition lift (r : (Exn + Response) * @State World)
    : (Raised + Response) * @State World :=
  (match r.1 with inl e => inl (Runtime e) | inr response => inr response end, r.2).

End Full.

End Full.

(** ** Selection strategies, persistence, and the log read back *)

(** Iterating [ProviderName] yields its members in declaration order. *)
Definition iter_ProviderName : list ProviderName := [GEMINI; CLAUDE; OPENAI].

(** [min(ProviderName, key=key)]: the first member, replaced by a later one
    only when the key of the later one is smaller. *)
Definition min_ProviderName {K : Type} (lt : K -> K -> bool)
    (key : ProviderName -> K) : ProviderName :=
  foldl (fun best p => if lt (key p) (key best) then p else best)
        GEMINI [CLAUDE; OPENAI].

(** [max(ProviderName, key=key)]: the first member, replaced by a later one
    only when the key of the later one is greater. *)
Definition max_ProviderName {K : Type} (gt : K -> K -> bool)
    (key : ProviderName -> K) : ProviderName :=
  foldl (fun best p => if gt (key p) (key best) then p else best)
        GEMINI [CLAUDE; OPENAI].

(** [x > y] on the exact values of two availabilities. *)
Definition Qgt_bool (x y : Q) : bool := negb (Qle_bool x y).

(** One provider's entry of [metrics.json], as [_load_metrics] reads it with
    [provider_data.get(key, default)]: each key is there or not.  Entries are
    taken well-typed (integers for the counters, a float for the cost). *)
Record SavedMetrics : Type := mkSavedMetrics {
  saved_requests_total : option Z;
  saved_requests_success : option Z;
  saved_requests_failed : option Z;
  saved_total_cost : option float;
  saved_last_checked : option string
}.

(** The four assignments of [_load_metrics] for one provider found in the
    file. *)
Definition load_entry (d : SavedMetrics) (m : ProviderMetrics) : ProviderMetrics :=
  {| name := name m; status := status m;
     requests_total := default 0 (saved_requests_total d);
     requests_success := default 0 (saved_requests_success d);
     requests_failed := default 0 (saved_requests_failed d);
     total_cost := default 0%float (saved_total_cost d);
     avg_latency_ms := avg_latency_ms m;
     last_error := last_error m;
     last_checked := last_checked m |}.

(** What one logged exchange with a backend does to the record of [p]. *)
Definition apply_event (p : ProviderName) (m : ProviderMetrics) (ev : Event)
    : ProviderMetrics :=
  match ev with
  | Invoked p' _ (inr response) => if decide (p' = p) then update_metrics response m else m
  | Invoked p' _ (inl e) => if decide (p' = p) then record_failure e m else m
  | Probed p' o =>
      if decide (p' = p)
      then set_status (if reported o then HEALTHY else UNHEALTHY) m
      else m
  end.

(** The messages of the failed invocations of [p] in a log, oldest first. *)
Definition failures_of (p : ProviderName) (h : list Event) : list string :=
  omap (fun ev => match ev with
                  | Invoked p' _ (inl e) => if decide (p' = p) then Some e else None
                  | _ => None
                  end) h.

(** The responses [p] gave in a log, oldest first. *)
Definition answers_of (p : ProviderName) (h : list Event) : list Response :=
  omap (fun ev => match ev with
                  | Invoked p' _ (inr r) => if decide (p' = p) then Some r else None
                  | _ => None
                  end) h.

(** What the probes of [p] in a log reported, oldest first. *)
Definition probes_of (p : ProviderName) (h : list Event) : list bool :=
  omap (fun ev => match ev with
                  | Probed p' o => if decide (p' = p) then Some (reported o) else None
                  | _ => None
                  end) h.

(** An invocation that raised. *)
Definition is_failure (ev : Event) : Prop :=
  match ev with Invoked _ _ (inl _) => True | _ => False end.

(** A key under which the floats that are not NaN are ordered as [<] orders
    them: the class (minus infinity, negative, zero, positive, infinity), then
    exponent and mantissa, both negated for the negative numbers. *)
Definition SF_rank (f : spec_float) : option (Z * Z * Z) :=
  match f with
  | S754_nan => None
  | S754_infinity true => Some (-2, 0, 0)
  | S754_infinity false => Some (2, 0, 0)
  | S754_zero _ => Some (0, 0, 0)
  | S754_finite true m e => Some (-1, - e, - Z.pos m)
  | S754_finite false m e => Some (1, e, Z.pos m)
  end.

Definition rank_lt (a b : Z * Z * Z) : Prop :=
  a.1.1 < b.1.1
  \/ (a.1.1 = b.1.1 /\ (a.1.2 < b.1.2 \/ (a.1.2 = b.1.2 /\ a.2 < b.2))).

Section Strategies.

Context {World : Type} `{!ProviderBackend World}.

(** [LLMRouter.get_cheapest_provider]; [<] is the comparison of floats. *)
Definition get_cheapest_provider : ProviderName :=
  min_ProviderName PrimFloat.ltb cost_per_1k_tokens.

(** [LLMRouter.get_healthiest_provider].  The availabilities are compared
    as exact quotients; the code compares their doubles, which is the same
    comparison when the availabilities are 0, 1/2 or 1, as on every router
    that started fresh. *)
Definition get_healthiest_provider (s : @State World) : ProviderName :=
  max_ProviderName Qgt_bool (fun p => availability (metrics s p)).

(** [LLMRouter.get_fastest_provider]. *)
Definition get_fastest_provider : ProviderName := GEMINI.

(** The dictionary [save_metrics] dumps to [metrics.json]. *)
Definition save_metrics (s : @State World) : gmap string SavedMetrics :=
  foldl (fun data p =>
           <[value p :=
               {| saved_requests_total := Some (requests_total (metrics s p));
                  saved_requests_success := Some (requests_success (metrics s p));
                  saved_requests_failed := Some (requests_failed (metrics s p));
                  saved_total_cost := Some (total_cost (metrics s p));
                  saved_last_checked := Some (last_checked (metrics s p)) |}]> data)
        ∅ iter_ProviderName.

(** [LLMRouter._load_metrics]; [file] is the parsed content of
    [metrics.json], [None] when the file does not exist or cannot be read or
    parsed (the exception is logged and nothing was assigned yet). *)
Definition _load_metrics (file : option (gmap string SavedMetrics)) (s : @State World)
    : @State World :=
  match file with
  | None => s
  | Some data =>
      foldl (fun s p =>
               match data !! value p with
               | Some provider_data =>
                   with_metrics
                     (<[p := load_entry provider_data (metrics s p)]> (metrics s)) s
               | None => s
               end)
            s iter_ProviderName
  end.

(** [LLMRouter.__init__] with what the storage directory holds. *)
Definition init_from (file : option (gmap string SavedMetrics)) (now : string)
    (w : World) : @State World :=
  _load_metrics file (init now w).

End Strategies.

(** ** The backends the constructor installs

    [GeminiBackend], [ClaudeBackend] and [OpenAIBackend] simulate a provider.
    What they take from Python itself is a parameter: the number of words of
    [text.split()], the slice [text[:n]], the true division of two integers,
    and the clock behind [datetime.now().isoformat()], which is all the world
    these backends have. *)
Class PyRuntime (World : Type) : Type := {
  str_split_len : string -> Z;
  str_prefix : nat -> string -> string;
  int_truediv : Z -> Z -> float;
  datetime_now_isoformat : World -> string * World
}.

(** The name each backend writes into its response text. *)
Definition backend_label (p : ProviderName) : string :=
  match p with GEMINI => "Gemini" | CLAUDE => "Claude" | OPENAI => "OpenAI" end.

(** What each backend adds to [len(query.text.split()) * 2]. *)
Definition extra_tokens (p : ProviderName) : Z :=
  match p with GEMINI => 0 | CLAUDE => 500 | OPENAI => 200 end.

(** The three [cost_per_1k_tokens] methods. *)
Definition builtin_cost_per_1k_tokens (p : ProviderName) : float :=
  match p with
  | GEMINI => 0x1.47ae147ae147bp-7%float  (* 0.01 *)
  | CLAUDE => 0x1.eb851eb851eb8p-6%float  (* 0.03 *)
  | OPENAI => 0x1.999999999999ap-5%float  (* 0.05 *)
  end.

(** The [latency_ms] each backend reports. *)
Definition builtin_latency_ms (p : ProviderName) : float :=
  match p with GEMINI => 150%float | CLAUDE => 200%float | OPENAI => 250%float end.

Section Builtin.

Context {World : Type} `{!PyRuntime World}.

(** The three [query] methods. *)
Definition builtin_query (p : ProviderName) (q : Query) (w : World)
    : (string + Response) * World :=
  let tokens := str_split_len (text q) * 2 + extra_tokens p in
  let cost := PrimFloat.mul (int_truediv tokens 1000) (builtin_cost_per_1k_tokens p) in
  let '(now, w') := datetime_now_isoformat w in
  (inr {| response_text :=
            "[" +:+ backend_label p +:+ " response to: "
                +:+ str_prefix 50 (text q) +:+ "...]";
          provider := p;
          tokens_used := tokens;
          cost := cost;
          latency_ms := builtin_latency_ms p;
          timestamp := now |},
   w').

(** The three [health_check] methods. *)
Definition builtin_health_check (p : ProviderName) (w : World)
    : (string + bool) * World :=
  (inr true, w).

#[global] Instance builtin_backend : ProviderBackend World := {|
  backend_query := builtin_query;
  backend_health_check := builtin_health_check;
  cost_per_1k_tokens := builtin_cost_per_1k_tokens
|}.

End Builtin.

(** The record of the data-class test: [ProviderMetrics(name=GEMINI,
    requests_total=10, requests_success=8)]. *)
Definition eight_of_ten : ProviderMetrics :=
  {| name := GEMINI; status := HEALTHY;
     requests_total := 10; requests_success := 8; requests_failed := 0;
     total_cost := 0%float; avg_latency_ms := 0%float;
     last_error := None; last_checked := "2025-01-01T00:00:00" |}.

(** Stand-ins for what the simulated backends take from Python, good for
    ASCII text and small counts: a word is a run of characters other than
    the space, a slice is a slice of bytes, the division is the division of
    the two integers as floats, and the clock is a counter. *)
Fixpoint count_words (in_word : bool) (t : string) : Z :=
  match t with
  | EmptyString => 0
  | String a t' =>
      if byte_in 32 32 a then count_words false t'
      else (if in_word then 0 else 1) + count_words true t'
  end.

#[global] Instance plain_runtime : PyRuntime nat := {|
  str_split_len t := count_words false t;
  str_prefix n t := String.substring 0 n t;
  int_truediv a b :=
    PrimFloat.div (PrimFloat.of_uint63 (Uint63.of_Z a))
                  (PrimFloat.of_uint63 (Uint63.of_Z b));
  datetime_now_isoformat w := ("2025-01-01T00:00:0" +:+ pretty w, S w)
|}.

(** A router over the installed backends, at clock 0. *)
Definition stock : @State nat := init "2025-01-01T00:00:00" 0%nat.

(** The calls of a short session: a query, a health sweep, the query again. *)
Definition short_session : list Call :=
  [CallQuery (ask "What is AI?" None) None true; CallHealthCheck;
   CallQuery (ask "What is AI?" None) None true].

(** A session over the scripted double in which the first call fails on
    all three backends and the second is answered. *)
Definition fail_then_answer : list Call :=
  [CallQuery (ask "Test" None) None true; CallQuery (ask "Again" None) None true].

Definition outage : list Scripted :=
  [Raises "gemini down"; Raises "claude down"; Raises "openai down"].

(** A router restarted on the scripted double from what [after_failed_call]
    saved, then run through [fail_then_answer]. *)
Definition restarted : @State (list Scripted) :=
  run fail_then_answer
      (init_from (Some (save_metrics after_failed_call)) "2025-01-02T00:00:00" outage).

(** A stand-in for the message of the exception of [Query.hash]: the one
    of the digit limit, or the one of the codec. *)
#[global] Instance plain_errors : PyErrors := {|
  hash_error q :=
    if utf8_valid (text q)
    then "Exceeds the limit (4300 digits) for integer string conversion"
    else "'utf-8' codec can't encode character: surrogates not allowed"
|}.

(** A query whose [max_tokens] has 4301 digits. *)
Definition oversized : Query :=
  {| text := "Test"; model := None; temperature := 0.5%float;
     max_tokens := 10 ^ 4300; system_prompt := None |}.

(** * Properties *)

Section RouterFacts.

Context {World : Type} `{!ProviderBackend World} `{!PyLib}.
Implicit Types (s : @State World) (q : Query) (p : ProviderName)
               (m : ProviderMetrics) (providers rest pre post : list ProviderName)
               (candidates : option (list ProviderName)).

(** ** Reading a metrics table after a pointwise update *)

Lemma metrics_insert_eq (f : ProviderName -> ProviderMetrics) p m :
  (<[p := m]> f) p = m.
Proof. apply fn_lookup_insert. Qed.

Lemma metrics_insert_ne (f : ProviderName -> ProviderMetrics) p p' m :
  p <> p' -> (<[p := m]> f) p' = f p'.
Proof. intros Hne. by apply fn_lookup_insert_ne. Qed.

(** A property of a record that the update at [p] keeps for the record of
    [p] holds for every record of the updated table. *)
Lemma metrics_insert_keeps {A} (g : ProviderMetrics -> A)
    (f : ProviderName -> ProviderMetrics) p m p' :
  g m = g (f p) -> g ((<[p := m]> f) p') = g (f p').
Proof.
  intros Hg. destruct (decide (p = p')) as [->|Hne].
  - by rewrite metrics_insert_eq.
  - by rewrite metrics_insert_ne.
Qed.

(** ** The backend calls touch the world and the log only *)

Lemma call_query_metrics p q s :
  metrics (call_query p q s).2 = metrics s.
Proof. unfold call_query. by destruct (backend_query p q (world s)). Qed.

Lemma call_query_cache p q s :
  cache (call_query p q s).2 = cache s.
Proof. unfold call_query. by destruct (backend_query p q (world s)). Qed.

Lemma call_query_history p q s :
  history (call_query p q s).2 = history s ++ [Invoked p q (call_query p q s).1].
Proof. unfold call_query. by destruct (backend_query p q (world s)). Qed.

Lemma call_health_check_metrics p s :
  metrics (call_health_check p s).2 = metrics s.
Proof. unfold call_health_check. by destruct (backend_health_check p (world s)). Qed.

Lemma call_health_check_history p s :
  history (call_health_check p s).2 = history s ++ [Probed p (call_health_check p s).1].
Proof. unfold call_health_check. by destruct (backend_health_check p (world s)). Qed.

(** ** The failover loop, one property at a time *)

(** No turn of the loop writes a [status]. *)
Lemma try_providers_status q providers rest : forall s p,
  status (metrics (try_providers q providers rest s).2 p) = status (metrics s p).
Proof.
  induction rest as [|c rest IH]; intros s p; simpl; [done|].
  pose proof (call_query_metrics c q s) as Hm.
  destruct (call_query c q s) as [[e|r] s1]; simpl in Hm.
  - case_bool_decide; [simpl | rewrite IH; simpl];
      rewrite Hm; by apply (metrics_insert_keeps status).
  - simpl. rewrite Hm. by apply (metrics_insert_keeps status).
Qed.

(** Every turn moves [requests_total] and [requests_success] together: the
    answer adds one to both, the handler adds to neither. *)
Lemma try_providers_total_success q providers rest : forall s p,
  requests_total (metrics (try_providers q providers rest s).2 p)
    - requests_success (metrics (try_providers q providers rest s).2 p)
  = requests_total (metrics s p) - requests_success (metrics s p).
Proof.
  induction rest as [|c rest IH]; intros s p; simpl; [done|].
  pose proof (call_query_metrics c q s) as Hm.
  destruct (call_query c q s) as [[e|r] s1]; simpl in Hm.
  - assert (Hstep : requests_total (metrics (on_failure c e s1) p)
                      - requests_success (metrics (on_failure c e s1) p)
                    = requests_total (metrics s p) - requests_success (metrics s p)).
    { simpl. rewrite Hm.
      by rewrite (metrics_insert_keeps requests_total),
                 (metrics_insert_keeps requests_success). }
    case_bool_decide; [done | by rewrite IH].
  - simpl. rewrite Hm.
    destruct (decide (c = p)) as [->|Hne].
    + rewrite !metrics_insert_eq. simpl. lia.
    + by rewrite !metrics_insert_ne.
Qed.

(** A loop that returns a response has stored it under the fingerprint. *)
Lemma try_providers_caches q providers rest : forall s r s',
  try_providers q providers rest s = (inr r, s') ->
  cache s' !! hash q = Some r.
Proof.
  induction rest as [|c rest IH]; intros s r s' Hrun; simpl in Hrun; [done|].
  destruct (call_query c q s) as [[e|r1] s1].
  - case_bool_decide; [done | by eapply IH].
  - injection Hrun as <- <-. simpl. apply lookup_insert_eq.
Qed.

(** ** A run of failures *)

Lemma events_since_app s s' (evs : list Event) :
  history s' = history s ++ evs -> events_since s s' = evs.
Proof. intros Hh. unfold events_since. rewrite Hh. apply drop_app_length. Qed.

Lemma fail_run_cons q p pre s s1 :
  fail_run q (p :: pre) s = Some s1 ->
  exists e s0, call_query p q s = (inl e, s0)
               /\ fail_run q pre (on_failure p e s0) = Some s1.
Proof.
  simpl. destruct (call_query p q s) as [[e|r] s0]; [|done].
  intros Hrun. by exists e, s0.
Qed.

(** The failures leave the cache alone. *)
Lemma fail_run_cache q pre : forall s s1,
  fail_run q pre s = Some s1 -> cache s1 = cache s.
Proof.
  induction pre as [|c pre IH]; intros s s1 Hrun.
  - by injection Hrun as <-.
  - apply fail_run_cons in Hrun as (e & s0 & Hcall & Hrun).
    rewrite (IH _ _ Hrun). simpl.
    pose proof (call_query_cache c q s) as Hc. by rewrite Hcall in Hc.
Qed.

(** They log one failed invocation per candidate, in list order. *)
Lemma fail_run_history q pre : forall s s1,
  fail_run q pre s = Some s1 ->
  exists errs : list string,
    length errs = length pre
    /\ history s1 = history s ++ zip_with (fun x e => Invoked x q (inl e)) pre errs.
Proof.
  induction pre as [|c pre IH]; intros s s1 Hrun.
  - injection Hrun as <-. exists []. by rewrite app_nil_r.
  - apply fail_run_cons in Hrun as (e & s0 & Hcall & Hrun).
    destruct (IH _ _ Hrun) as (errs & Hlen & Hhist).
    exists (e :: errs). split; [simpl; by rewrite Hlen|].
    rewrite Hhist. simpl.
    pose proof (call_query_history c q s) as Hh. rewrite Hcall in Hh. simpl in Hh.
    rewrite Hh. by rewrite <- app_assoc.
Qed.

Lemma fail_run_targets q pre s s1 :
  fail_run q pre s = Some s1 -> target <$> events_since s s1 = pre.
Proof.
  intros Hrun. destruct (fail_run_history _ _ _ _ Hrun) as (errs & Hlen & Hhist).
  rewrite (events_since_app _ _ _ Hhist).
  apply fmap_zip_with_l; [done | lia].
Qed.

(** Each failure adds one to the failure counter of its candidate, and to
    nothing else but [last_error]. *)
Lemma fail_run_requests_failed q pre : forall s s1 p,
  fail_run q pre s = Some s1 ->
  requests_failed (metrics s1 p)
  = requests_failed (metrics s p) + Z.of_nat (count_occ ProviderName_eq_dec pre p).
Proof.
  induction pre as [|c pre IH]; intros s s1 p Hrun.
  - injection Hrun as <-. simpl. lia.
  - apply fail_run_cons in Hrun as (e & s0 & Hcall & Hrun).
    rewrite (IH _ _ _ Hrun). simpl.
    pose proof (call_query_metrics c q s) as Hm. rewrite Hcall in Hm. simpl in Hm.
    rewrite Hm. destruct (ProviderName_eq_dec c p) as [->|Hne].
    + rewrite metrics_insert_eq. simpl. lia.
    + rewrite metrics_insert_ne by done. lia.
Qed.

Lemma fail_run_untouched q pre : forall s s1 p,
  fail_run q pre s = Some s1 -> p ∉ pre -> metrics s1 p = metrics s p.
Proof.
  induction pre as [|c pre IH]; intros s s1 p Hrun Hnin.
  - by injection Hrun as <-.
  - apply fail_run_cons in Hrun as (e & s0 & Hcall & Hrun).
    apply not_elem_of_cons in Hnin as [Hne Hnin].
    rewrite (IH _ _ _ Hrun Hnin). simpl.
    pose proof (call_query_metrics c q s) as Hm. rewrite Hcall in Hm. simpl in Hm.
    rewrite Hm. by rewrite metrics_insert_ne.
Qed.

(** ** The loop along a run of failures *)

(** While no failing candidate equals the last entry of the list, the loop
    walks on to the first candidate that answers. *)
Lemma try_providers_first_success q providers p post r : forall pre s s1 s2,
  fail_run q pre s = Some s1 ->
  (forall x, x ∈ pre -> last providers <> Some x) ->
  call_query p q s1 = (inr r, s2) ->
  try_providers q providers (pre ++ p :: post) s = (inr r, on_success p q r s2).
Proof.
  induction pre as [|c pre IH]; intros s s1 s2 Hrun Hlast Hcall.
  - injection Hrun as <-. simpl. by rewrite Hcall.
  - apply fail_run_cons in Hrun as (e & s0 & Hc & Hrun).
    simpl. rewrite Hc. rewrite bool_decide_eq_false_2.
    + eapply IH; [done | | done]. intros x Hx. apply Hlast. by right.
    + apply Hlast. by left.
Qed.

(** When the candidate that is the last entry fails, and none before it
    equals it, the loop gives up with that failure. *)
Lemma try_providers_exhausted q providers p post e : forall pre s s1 s2,
  fail_run q pre s = Some s1 ->
  (forall x, x ∈ pre -> last providers <> Some x) ->
  last providers = Some p ->
  call_query p q s1 = (inl e, s2) ->
  try_providers q providers (pre ++ p :: post) s
  = (inl (RuntimeError ("All providers failed: " +:+ e)), on_failure p e s2).
Proof.
  induction pre as [|c pre IH]; intros s s1 s2 Hrun Hlast Hp Hcall.
  - injection Hrun as <-. simpl. rewrite Hcall. by rewrite bool_decide_eq_true_2.
  - apply fail_run_cons in Hrun as (e0 & s0 & Hc & Hrun).
    simpl. rewrite Hc. rewrite bool_decide_eq_false_2.
    + eapply IH; [done | | done | done]. intros x Hx. apply Hlast. by right.
    + apply Hlast. by left.
Qed.

(** ** The cache in front of the loop *)

Lemma query_uncached q candidates use_cache s :
  use_cache = false \/ cache s !! hash q = None ->
  query q candidates use_cache s
  = try_providers q (default _get_default_providers candidates)
      (default _get_default_providers candidates) s.
Proof. unfold query. by intros [-> | ->]; [|destruct use_cache]. Qed.

(** A call that returns a response leaves it in the cache under the
    fingerprint of its query, whether it came from a backend or from the
    cache itself. *)
Lemma query_caches q candidates use_cache s r s' :
  query q candidates use_cache s = (inr r, s') -> cache s' !! hash q = Some r.
Proof.
  unfold query. destruct use_cache.
  - destruct (cache s !! hash q) as [cached|] eqn:Hc.
    + by intros [= <- <-].
    + apply try_providers_caches.
  - apply try_providers_caches.
Qed.

Lemma query_cached q candidates s cached :
  cache s !! hash q = Some cached ->
  query q candidates true s = (inr cached, s).
Proof. intros Hc. unfold query. by rewrite Hc. Qed.

(** C4. When the fingerprint of the query has a cache entry, [query] with
    caching enabled returns that entry and leaves the whole state as it
    was: no event is logged (no backend was invoked), the world is
    untouched and every provider's metrics record, with its
    [requests_total], [requests_success] and [requests_failed], is
    unchanged. *)
Theorem query_cache_hit q candidates s cached :
  cache s !! hash q = Some cached ->
  query q candidates true s = (inr cached, s)
  /\ events_since s (query q candidates true s).2 = []
  /\ forall p, metrics (query q candidates true s).2 p = metrics s p.
Proof.
  intros Hc. rewrite (query_cached _ _ _ _ Hc). simpl. split_and!; [done | | done].
  unfold events_since. apply drop_all.
Qed.

(** C5. Two queries that agree on [text], [temperature] and [max_tokens]
    have the same fingerprint whatever their [system_prompt] and [model]
    are; so once a call for the first has returned a response, a call for
    the second with caching enabled returns that same response from the
    cache and changes nothing. *)
Theorem hash_ignores_system_prompt_and_model q1 q2 :
  text q1 = text q2 ->
  temperature q1 = temperature q2 ->
  max_tokens q1 = max_tokens q2 ->
  hash q1 = hash q2
  /\ forall candidates1 use_cache1 candidates2 s r s',
       query q1 candidates1 use_cache1 s = (inr r, s') ->
       query q2 candidates2 true s' = (inr r, s').
Proof.
  intros Ht Htemp Hmax.
  assert (Hh : hash q1 = hash q2) by (unfold hash; by rewrite Ht, Htemp, Hmax).
  split; [done|]. intros candidates1 use_cache1 candidates2 s r s' Hq.
  apply query_caches in Hq. rewrite Hh in Hq.
  by apply query_cached.
Qed.

(** C7, as the code has it. In the turn of the loop where candidate [p]
    answers with [r], for a query whose fingerprint can be computed, the
    record of [p] gets [requests_total] and
    [requests_success] raised by one and [r]'s cost added to [total_cost];
    [last_error] keeps the value it had (it is not cleared), and so do
    [requests_failed] and [status]. *)
Theorem success_updates_metrics q providers p rest s r s1 :
  hashable q = true ->
  call_query p q s = (inr r, s1) ->
  (try_providers q providers (p :: rest) s).1 = inr r
  /\ requests_total (metrics (try_providers q providers (p :: rest) s).2 p)
     = requests_total (metrics s p) + 1
  /\ requests_success (metrics (try_providers q providers (p :: rest) s).2 p)
     = requests_success (metrics s p) + 1
  /\ total_cost (metrics (try_providers q providers (p :: rest) s).2 p)
     = PrimFloat.add (total_cost (metrics s p)) (cost r)
  /\ last_error (metrics (try_providers q providers (p :: rest) s).2 p)
     = last_error (metrics s p)
  /\ requests_failed (metrics (try_providers q providers (p :: rest) s).2 p)
     = requests_failed (metrics s p)
  /\ status (metrics (try_providers q providers (p :: rest) s).2 p)
     = status (metrics s p).
Proof.
  intros _ Hcall. simpl. rewrite Hcall. simpl.
  pose proof (call_query_metrics p q s) as Hm. rewrite Hcall in Hm. simpl in Hm.
  rewrite metrics_insert_eq, Hm. by split_and!.
Qed.

(** C9. A call of [query] leaves the [status] of every provider as it was,
    whatever the candidates, the cache and the backends do and however many
    failures it records; [clear_cache] leaves it too.  Of the router's
    operations only [health_check] assigns [status]. *)
Theorem query_preserves_status q candidates use_cache s p :
  status (metrics (query q candidates use_cache s).2 p) = status (metrics s p)
  /\ status (metrics (clear_cache s) p) = status (metrics s p).
Proof.
  split; [|done]. unfold query.
  destruct (if use_cache then cache s !! hash q else None); [done|].
  apply try_providers_status.
Qed.

(** ** The health sweep *)

(** One turn of the sweep: the backend is probed once, its entry is what
    the probe reported, its status follows the entry, and a probe that
    raises is absorbed here. *)
Lemma check_provider_spec (health : gmap ProviderName bool) s p :
  exists o : string + bool,
    (check_provider (health, s) p).1 = <[p := reported o]> health
    /\ history (check_provider (health, s) p).2 = history s ++ [Probed p o]
    /\ metrics (check_provider (health, s) p).2
       = <[p := set_status (if reported o then HEALTHY else UNHEALTHY) (metrics s p)]>
           (metrics s).
Proof.
  unfold check_provider, call_health_check.
  destruct (backend_health_check p (world s)) as [[e|is_healthy] w].
  - by exists (inl e).
  - by exists (inr is_healthy).
Qed.

(** The sweep probes the three backends in the order of the [providers]
    dictionary, whatever the probes answer, and gives each backend the
    entry and the status of its own probe. *)
Lemma health_check_spec s :
  exists o : ProviderName -> string + bool,
    history (health_check s).2
    = history s ++ [Probed GEMINI (o GEMINI); Probed CLAUDE (o CLAUDE);
                    Probed OPENAI (o OPENAI)]
    /\ forall p,
         (health_check s).1 !! p = Some (reported (o p))
         /\ metrics (health_check s).2 p
            = set_status (if reported (o p) then HEALTHY else UNHEALTHY) (metrics s p).
Proof.
  unfold health_check. cbn [foldl].
  destruct (check_provider_spec ∅ s GEMINI) as (o1 & Hh1 & Hl1 & Hm1).
  destruct (check_provider (∅, s) GEMINI) as [h1 s1]. simpl in Hh1, Hl1, Hm1.
  destruct (check_provider_spec h1 s1 CLAUDE) as (o2 & Hh2 & Hl2 & Hm2).
  destruct (check_provider (h1, s1) CLAUDE) as [h2 s2]. simpl in Hh2, Hl2, Hm2.
  destruct (check_provider_spec h2 s2 OPENAI) as (o3 & Hh3 & Hl3 & Hm3).
  destruct (check_provider (h2, s2) OPENAI) as [h3 s3]. simpl in Hh3, Hl3, Hm3.
  exists (fun p => match p with GEMINI => o1 | CLAUDE => o2 | OPENAI => o3 end).
  simpl. split.
  - rewrite Hl3, Hl2, Hl1. by rewrite <- !app_assoc.
  - subst h3 h2 h1. rewrite Hm3, Hm2, Hm1.
    intros []; split;
      solve [ by simplify_map_eq
            | repeat first [ rewrite metrics_insert_eq
                           | rewrite metrics_insert_ne by done ]; done ].
Qed.

(** C8. If the probe of backend [p] raises during the sweep, the sweep
    reports [False] for [p] and sets its status to [UNHEALTHY]; and in every
    sweep, whichever probes raise, each of the three backends is probed
    exactly once, has an entry in the returned dictionary, and gets the
    entry and the status that its own probe calls for. *)
Theorem health_check_isolates_failures s p e :
  Probed p (inl e) ∈ events_since s (health_check s).2 ->
  (health_check s).1 !! p = Some false
  /\ status (metrics (health_check s).2 p) = UNHEALTHY
  /\ target <$> events_since s (health_check s).2 = [GEMINI; CLAUDE; OPENAI]
  /\ (forall p', is_Some ((health_check s).1 !! p'))
  /\ forall p' o,
       Probed p' o ∈ events_since s (health_check s).2 ->
       (health_check s).1 !! p' = Some (reported o)
       /\ status (metrics (health_check s).2 p')
          = if reported o then HEALTHY else UNHEALTHY.
Proof.
  destruct (health_check_spec s) as (o & Hhist & Hall).
  rewrite (events_since_app _ _ _ Hhist).
  assert (Hown : forall p' o',
             Probed p' o' ∈ [Probed GEMINI (o GEMINI); Probed CLAUDE (o CLAUDE);
                             Probed OPENAI (o OPENAI)] ->
             (health_check s).1 !! p' = Some (reported o')
             /\ status (metrics (health_check s).2 p')
                = if reported o' then HEALTHY else UNHEALTHY).
  { intros p' o' Hin. destruct (Hall p') as [Hh Hm].
    assert (o' = o p') as ->.
    { repeat (apply elem_of_cons in Hin as [[= -> ->] | Hin]; [done|]).
      by apply elem_of_nil in Hin. }
    split; [done|]. by rewrite Hm. }
  intros Hin. destruct (Hown _ _ Hin) as [Hh Hst]. split_and!; try done.
  intros p'. destruct (Hall p') as [-> _]. by eexists.
Qed.

(** ** Sequences of calls *)

Lemma step_total_success s (c : Call) p :
  requests_total (metrics (step s c) p) - requests_success (metrics (step s c) p)
  = requests_total (metrics s p) - requests_success (metrics s p).
Proof.
  destruct c as [q candidates use_cache | |]; simpl.
  - unfold query.
    destruct (if use_cache then cache s !! hash q else None); [done|].
    apply try_providers_total_success.
  - destruct (health_check_spec s) as (o & _ & Hall).
    by destruct (Hall p) as [_ ->].
  - done.
Qed.

Lemma run_total_success (calls : list Call) : forall s p,
  requests_total (metrics (run calls s) p) - requests_success (metrics (run calls s) p)
  = requests_total (metrics s p) - requests_success (metrics s p).
Proof.
  unfold run. induction calls as [|c calls IH]; intros s p; simpl; [done|].
  rewrite IH. apply step_total_success.
Qed.

Lemma success_rate_all_succeeded m :
  requests_total m = requests_success m -> (success_rate m == 1)%Q.
Proof.
  intros Heq. unfold success_rate.
  destruct (requests_total m =? 0) eqn:Hz; [reflexivity|].
  apply Z.eqb_neq in Hz. rewrite <- Heq.
  unfold Qdiv. apply Qmult_inv_r.
  unfold Qeq. simpl. lia.
Qed.

(** C10. From freshly constructed metrics, after any sequence of [query],
    [health_check] and [clear_cache] calls, every provider has
    [requests_total = requests_success] (a failure adds to
    [requests_failed] only); hence its [success_rate] is 1, and while its
    status is [HEALTHY] its [availability] is 1 whatever failures were
    recorded. *)
Theorem requests_total_counts_successes_only (calls : list Call)
    (now : string) (w : World) p :
  requests_total (metrics (run calls (init now w)) p)
  = requests_success (metrics (run calls (init now w)) p)
  /\ (success_rate (metrics (run calls (init now w)) p) == 1)%Q
  /\ (status (metrics (run calls (init now w)) p) = HEALTHY ->
      (availability (metrics (run calls (init now w)) p) == 1)%Q).
Proof.
  assert (Heq : requests_total (metrics (run calls (init now w)) p)
                = requests_success (metrics (run calls (init now w)) p)).
  { pose proof (run_total_success calls (init now w) p) as Hinv.
    simpl in Hinv. lia. }
  split_and!; [done | by apply success_rate_all_succeeded |].
  intros Hst. unfold availability. rewrite Hst.
  by apply success_rate_all_succeeded.
Qed.

(** ** Failover over a list without repeated candidates *)

Lemma fail_run_keeps {A} (g : ProviderMetrics -> A) q pre :
  (forall e m, g (record_failure e m) = g m) ->
  forall s s1 p, fail_run q pre s = Some s1 -> g (metrics s1 p) = g (metrics s p).
Proof.
  intros Hg. induction pre as [|c pre IH]; intros s s1 p Hrun.
  - by injection Hrun as <-.
  - apply fail_run_cons in Hrun as (e & s0 & Hcall & Hrun).
    rewrite (IH _ _ _ Hrun). simpl.
    pose proof (call_query_metrics c q s) as Hm. rewrite Hcall in Hm. simpl in Hm.
    rewrite Hm. by apply metrics_insert_keeps.
Qed.

Lemma fail_run_app q pre post : forall s,
  fail_run q (pre ++ post) s = fail_run q pre s ≫= fail_run q post.
Proof.
  induction pre as [|c pre IH]; intros s; simpl; [done|].
  by destruct (call_query c q s) as [[e|r] s0].
Qed.

Lemma nodup_prefix_not_last pre p post x :
  NoDup (pre ++ p :: post) -> x ∈ pre -> last (pre ++ p :: post) <> Some x.
Proof.
  intros Hnd Hx Hlast. rewrite last_app_cons in Hlast.
  apply last_Some_elem_of in Hlast.
  apply NoDup_app in Hnd as (_ & Hdisj & _). by apply (Hdisj x).
Qed.

Lemma nodup_count_one pre x :
  NoDup pre -> x ∈ pre -> count_occ ProviderName_eq_dec pre x = 1%nat.
Proof.
  intros Hnd Hx. apply NoDup_ListNoDup in Hnd.
  apply (proj1 (NoDup_count_occ' ProviderName_eq_dec pre) Hnd).
  by apply list_elem_of_In.
Qed.

(** X1, the ordering law. Over a candidate list without repeats, for a
    query whose fingerprint can be computed, when the candidates of [pre]
    fail in turn and [p] then answers with [r], a call that the cache does
    not answer returns [r]; it has invoked [pre] and
    then [p] and nothing after; [p] has one more success, each candidate
    of [pre] one more failure, and the records of the candidates after [p]
    are untouched. *)
Theorem query_first_success_nodup q pre p post use_cache s s1 r s2 :
  NoDup (pre ++ p :: post) ->
  hashable q = true ->
  use_cache = false \/ cache s !! hash q = None ->
  fail_run q pre s = Some s1 ->
  call_query p q s1 = (inr r, s2) ->
  query q (Some (pre ++ p :: post)) use_cache s = (inr r, on_success p q r s2)
  /\ target <$> events_since s (on_success p q r s2) = pre ++ [p]
  /\ requests_success (metrics (on_success p q r s2) p)
     = requests_success (metrics s p) + 1
  /\ requests_total (metrics (on_success p q r s2) p)
     = requests_total (metrics s p) + 1
  /\ (forall x, x ∈ pre ->
        requests_failed (metrics (on_success p q r s2) x)
        = requests_failed (metrics s x) + 1)
  /\ (forall x, x ∈ post -> metrics (on_success p q r s2) x = metrics s x).
Proof.
  intros Hnd _ Hmiss Hrun Hcall.
  pose proof (call_query_metrics p q s1) as Hm. rewrite Hcall in Hm. simpl in Hm.
  pose proof (call_query_history p q s1) as Hh. rewrite Hcall in Hh. simpl in Hh.
  destruct (fail_run_history _ _ _ _ Hrun) as (errs & Hlen & Hhist).
  apply NoDup_app in Hnd as Hparts. destruct Hparts as (Hpre & Hdisj & Hrest).
  apply NoDup_cons in Hrest as [Hp Hpost].
  split_and!.
  - rewrite query_uncached by done. simpl.
    eapply try_providers_first_success; [done | | done].
    intros x Hx. by apply nodup_prefix_not_last.
  - erewrite events_since_app; last first.
    { simpl. rewrite Hh, Hhist. by rewrite <- app_assoc. }
    rewrite fmap_app. simpl. f_equal.
    apply fmap_zip_with_l; [done | lia].
  - simpl. rewrite metrics_insert_eq, Hm. simpl.
    by rewrite (fail_run_keeps requests_success _ _ (fun _ _ => eq_refl) _ _ _ Hrun).
  - simpl. rewrite metrics_insert_eq, Hm. simpl.
    by rewrite (fail_run_keeps requests_total _ _ (fun _ _ => eq_refl) _ _ _ Hrun).
  - intros x Hx. simpl. rewrite metrics_insert_ne, Hm.
    + rewrite (fail_run_requests_failed _ _ _ _ _ Hrun).
      by rewrite nodup_count_one.
    + intros ->. apply (Hdisj x Hx). by left.
  - intros x Hx. simpl. rewrite metrics_insert_ne, Hm.
    + apply (fail_run_untouched _ _ _ _ _ Hrun).
      intros Hin. apply (Hdisj x Hin). by right.
    + by intros ->.
Qed.

(** X2, the exhausted case. Over a non-empty candidate list without repeats
    whose candidates all fail in turn, a call that the cache does not
    answer (caching disabled, or a fingerprint that can be computed and has
    no entry) raises [RuntimeError] with the message of the failure of the
    last candidate, after invoking every candidate once in list order;
    each candidate has one more failure and the other providers' records
    are untouched. *)
Theorem query_all_fail_nodup q providers use_cache s s1 :
  providers <> [] ->
  NoDup providers ->
  use_cache = false \/ (hashable q = true /\ cache s !! hash q = None) ->
  fail_run q providers s = Some s1 ->
  exists p e,
    last providers = Some p
    /\ last (history s1) = Some (Invoked p q (inl e))
    /\ query q (Some providers) use_cache s
       = (inl (RuntimeError ("All providers failed: " +:+ e)), s1)
    /\ target <$> events_since s s1 = providers
    /\ (forall x, x ∈ providers ->
          requests_failed (metrics s1 x) = requests_failed (metrics s x) + 1)
    /\ (forall x, x ∉ providers -> metrics s1 x = metrics s x).
Proof.
  intros Hne Hnd Hmiss' Hrun.
  assert (Hmiss : use_cache = false \/ cache s !! hash q = None)
    by (destruct Hmiss' as [? | [_ ?]]; auto).
  apply last_is_Some in Hne as [p Hlast].
  apply last_Some in Hlast as Hsplit. destruct Hsplit as [pre ->].
  pose proof Hrun as Hrun'. rewrite fail_run_app in Hrun'.
  destruct (fail_run q pre s) as [s0|] eqn:Hpre; [|done].
  change (fail_run q [p] s0 = Some s1) in Hrun'.
  apply fail_run_cons in Hrun' as (e & s2 & Hcall & Hend).
  injection Hend as <-.
  pose proof (call_query_history p q s0) as Hh. rewrite Hcall in Hh. simpl in Hh.
  exists p, e. split_and!.
  - done.
  - simpl. rewrite Hh. apply last_snoc.
  - rewrite query_uncached by done. simpl.
    eapply try_providers_exhausted; [done | | done | done].
    intros x Hx. by apply nodup_prefix_not_last.
  - by apply (fail_run_targets q).
  - intros x Hx. rewrite (fail_run_requests_failed _ _ _ _ _ Hrun).
    by rewrite nodup_count_one.
  - intros x Hx. by apply (fail_run_untouched _ _ _ _ _ Hrun).
Qed.

End RouterFacts.

(** * The properties on concrete runs *)

(** C1 at [retry_list], GEMINI raising once. The call stops at the failure of
    its first candidate, because that candidate equals [providers[-1]], and
    raises the exhausted error: GEMINI is the only backend invoked, although
    CLAUDE, next in the list, answers in the world the call leaves behind;
    nothing is recorded as a success and nothing is cached. *)
Theorem retry_list_stops_before_claude :
  retry_first_fails.1 = inl (RuntimeError "All providers failed: Failed")
  /\ target <$> history retry_first_fails.2 = [GEMINI]
  /\ (backend_query CLAUDE (ask "Test" None) (world retry_first_fails.2)).1
     = inr (canned CLAUDE (ask "Test" None))
  /\ requests_success (metrics retry_first_fails.2 CLAUDE) = 0
  /\ cache retry_first_fails.2 !! hash (ask "Test" None) = None.
Proof. vm_compute. by split_and!. Qed.

(** C2 at [retry_list], every invocation raising. The call raises after the
    first failure with the message of that first invocation: the two later
    entries of the list are never invoked (their scripted failures are still
    pending), and the failure counter of CLAUDE stays at 0. *)
Theorem retry_list_all_fail_counts_one :
  retry_all_fail.1 = inl (RuntimeError "All providers failed: gemini down")
  /\ target <$> history retry_all_fail.2 = [GEMINI]
  /\ world retry_all_fail.2 = [Raises "claude down"; Raises "gemini still down"]
  /\ requests_failed (metrics retry_all_fail.2 GEMINI) = 1
  /\ requests_failed (metrics retry_all_fail.2 CLAUDE) = 0.
Proof. vm_compute. by split_and!. Qed.

(** C3 after one failed call. The record of GEMINI has [requests_failed = 1]
    and [requests_total = requests_success = 0]: the total is not the sum of
    successes and failures. *)
Theorem failed_call_not_in_requests_total :
  requests_total (metrics after_failed_call GEMINI) = 0
  /\ requests_success (metrics after_failed_call GEMINI) = 0
  /\ requests_failed (metrics after_failed_call GEMINI) = 1
  /\ requests_total (metrics after_failed_call GEMINI)
     <> requests_success (metrics after_failed_call GEMINI)
        + requests_failed (metrics after_failed_call GEMINI).
Proof. vm_compute. by split_and!. Qed.

(** C7 fails as stated: GEMINI raised in one call and answers in the next;
    the success is recorded and [last_error] still holds the old message. *)
Lemma success_keeps_last_error :
  then_answered.1 = inr (canned GEMINI (ask "Again" None))
  /\ requests_success (metrics then_answered.2 GEMINI) = 1
  /\ last_error (metrics after_failed_call GEMINI) = Some "API error"
  /\ last_error (metrics then_answered.2 GEMINI) = Some "API error"
  /\ last_error (metrics then_answered.2 GEMINI) <> None.
Proof. vm_compute. by split_and!. Qed.

(** C4 on [after_same_query]: the repeated query is answered from the cache. *)
Lemma query_cache_hit_witness :
  cache after_same_query !! hash (ask "Same query" None)
    = Some (canned GEMINI (ask "Same query" None))
  /\ query (ask "Same query" None) None true after_same_query
     = (inr (canned GEMINI (ask "Same query" None)), after_same_query).
Proof.
  assert (Hhit : cache after_same_query !! hash (ask "Same query" None)
                 = Some (canned GEMINI (ask "Same query" None)))
    by (vm_compute; reflexivity).
  split; [exact Hhit|].
  exact (proj1 (query_cache_hit (ask "Same query" None) None after_same_query _ Hhit)).
Defined.

(** C5 on [after_same_query]: the same text with another system prompt and
    model is answered from the cache. *)
Lemma hash_ignores_system_prompt_and_model_witness :
  hash (ask "Same query" None) = hash same_query_other_prompt
  /\ query same_query_other_prompt (Some [OPENAI]) true after_same_query
     = (inr (canned GEMINI (ask "Same query" None)), after_same_query).
Proof.
  destruct (hash_ignores_system_prompt_and_model
              (ask "Same query" None) same_query_other_prompt
              eq_refl eq_refl eq_refl) as [Hhash Hroute].
  split; [exact Hhash|].
  apply (Hroute None true (Some [OPENAI]) (boot [])).
  vm_compute. reflexivity.
Defined.

(** C7 on the call of [then_answered]. *)
Lemma success_updates_metrics_witness :
  requests_total (metrics then_answered.2 GEMINI) = 1
  /\ requests_success (metrics then_answered.2 GEMINI) = 1
  /\ total_cost (metrics then_answered.2 GEMINI) = 0.5%float
  /\ last_error (metrics then_answered.2 GEMINI) = Some "API error".
Proof.
  destruct (success_updates_metrics (ask "Again" None) [GEMINI] GEMINI []
              after_failed_call (canned GEMINI (ask "Again" None))
              (call_query GEMINI (ask "Again" None) after_failed_call).2)
    as (_ & Htotal & Hsuccess & Hcost & Herror & _).
  { vm_compute. reflexivity. }
  { vm_compute. reflexivity. }
  split_and!.
  - exact Htotal.
  - exact Hsuccess.
  - exact Hcost.
  - exact Herror.
Defined.

(** C8 on [sweep_claude_raises]. *)
Lemma health_check_isolates_failures_witness :
  sweep_claude_raises.1 !! CLAUDE = Some false
  /\ status (metrics sweep_claude_raises.2 CLAUDE) = UNHEALTHY
  /\ sweep_claude_raises.1 !! GEMINI = Some true
  /\ sweep_claude_raises.1 !! OPENAI = Some false
  /\ status (metrics sweep_claude_raises.2 GEMINI) = HEALTHY.
Proof.
  destruct (health_check_isolates_failures
              (boot [Returns; Raises "timeout"; ReturnsFalse]) CLAUDE "timeout")
    as (Hentry & Hstatus & _ & _ & Hown).
  { vm_compute. apply list_elem_of_further, list_elem_of_here. }
  split_and!.
  - exact Hentry.
  - exact Hstatus.
  - refine (proj1 (Hown GEMINI (inr true) _)). vm_compute. apply list_elem_of_here.
  - refine (proj1 (Hown OPENAI (inr false) _)). vm_compute.
    apply list_elem_of_further, list_elem_of_further, list_elem_of_here.
  - refine (proj2 (Hown GEMINI (inr true) _)). vm_compute. apply list_elem_of_here.
Defined.

(** X1 on [fallback_to_claude]: OPENAI is never invoked. *)
Lemma query_first_success_nodup_witness :
  fallback_to_claude.1 = inr (canned CLAUDE (ask "Test" None))
  /\ target <$> history fallback_to_claude.2 = [GEMINI; CLAUDE]
  /\ requests_failed (metrics fallback_to_claude.2 GEMINI) = 1
  /\ requests_success (metrics fallback_to_claude.2 CLAUDE) = 1
  /\ metrics fallback_to_claude.2 OPENAI = metrics (boot [Raises "Failed"]) OPENAI.
Proof.
  destruct (query_first_success_nodup (ask "Test" None) [GEMINI] CLAUDE [OPENAI] true
              (boot [Raises "Failed"])
              (on_failure GEMINI "Failed"
                 (call_query GEMINI (ask "Test" None) (boot [Raises "Failed"])).2)
              (canned CLAUDE (ask "Test" None))
              (call_query CLAUDE (ask "Test" None)
                 (on_failure GEMINI "Failed"
                    (call_query GEMINI (ask "Test" None) (boot [Raises "Failed"])).2)).2)
    as (Hcall & Hevents & Hsuccess & _ & Hfailed & Hafter).
  { compute_done. }
  { vm_compute. reflexivity. }
  { right. vm_compute. reflexivity. }
  { vm_compute. reflexivity. }
  { vm_compute. reflexivity. }
  split_and!.
  - exact (f_equal fst Hcall).
  - exact Hevents.
  - exact (Hfailed GEMINI (list_elem_of_here _ _)).
  - exact Hsuccess.
  - exact (Hafter OPENAI (list_elem_of_here _ _)).
Defined.

(** X2 on [all_three_fail]: the message is the one of the
    last candidate, and each candidate failed once. *)
Lemma query_all_fail_nodup_witness :
  all_three_fail.1 = inl (RuntimeError "All providers failed: openai down")
  /\ target <$> history all_three_fail.2 = [GEMINI; CLAUDE; OPENAI]
  /\ requests_failed (metrics all_three_fail.2 GEMINI) = 1
  /\ requests_failed (metrics all_three_fail.2 CLAUDE) = 1
  /\ requests_failed (metrics all_three_fail.2 OPENAI) = 1.
Proof.
  destruct (query_all_fail_nodup (ask "Test" None) [GEMINI; CLAUDE; OPENAI] true
              (boot [Raises "gemini down"; Raises "claude down"; Raises "openai down"])
              all_three_fail.2)
    as (p & e & Hlast & Hhist & Hcall & Hevents & Hfailed & _).
  { done. }
  { compute_done. }
  { right. split; vm_compute; reflexivity. }
  { vm_compute. reflexivity. }
  vm_compute in Hhist. injection Hhist as <- <-.
  split_and!.
  - exact (f_equal fst Hcall).
  - exact Hevents.
  - exact (Hfailed GEMINI (list_elem_of_here _ _)).
  - exact (Hfailed CLAUDE (list_elem_of_further _ _ _ (list_elem_of_here _ _))).
  - exact (Hfailed OPENAI
             (list_elem_of_further _ _ _
                (list_elem_of_further _ _ _ (list_elem_of_here _ _)))).
Defined.

(** * Further properties of the router *)

Section RouterLaws.

Context {World : Type} `{!ProviderBackend World} `{!PyLib}.
Implicit Types (s : @State World) (q : Query) (p : ProviderName)
               (m : ProviderMetrics) (providers rest : list ProviderName)
               (candidates : option (list ProviderName)) (evs : list Event).

(** ** Each write of the loop is the effect of the event just logged *)

Lemma on_failure_apply c q e s p :
  metrics (on_failure c e s) p = apply_event p (metrics s p) (Invoked c q (inl e)).
Proof.
  simpl. destruct (decide (c = p)) as [->|Hne].
  - by rewrite metrics_insert_eq.
  - by rewrite metrics_insert_ne.
Qed.

Lemma on_success_apply c q r s p :
  metrics (on_success c q r s) p = apply_event p (metrics s p) (Invoked c q (inr r)).
Proof.
  simpl. destruct (decide (c = p)) as [->|Hne].
  - by rewrite metrics_insert_eq.
  - by rewrite metrics_insert_ne.
Qed.

(** ** The whole trace of one run of the loop *)

Lemma try_providers_trace q providers : forall rest s,
  exists evs,
    history (try_providers q providers rest s).2 = history s ++ evs
    /\ target <$> evs `prefix_of` rest
    /\ Forall (fun ev => exists p o, ev = Invoked p q o) evs
    /\ (forall p, metrics (try_providers q providers rest s).2 p
                  = foldl (apply_event p) (metrics s p) evs)
    /\ match (try_providers q providers rest s).1 with
       | inr r =>
           cache (try_providers q providers rest s).2 = <[hash q := r]> (cache s)
           /\ exists fs p, evs = fs ++ [Invoked p q (inr r)] /\ Forall is_failure fs
       | inl (RuntimeError msg) =>
           cache (try_providers q providers rest s).2 = cache s
           /\ Forall is_failure evs
           /\ ((msg = "No providers available"
                /\ forall x, x ∈ rest -> last providers <> Some x)
               \/ exists p e, last providers = Some p
                              /\ last evs = Some (Invoked p q (inl e))
                              /\ msg = "All providers failed: " +:+ e)
       end.
Proof.
  induction rest as [|c rest IH]; intros s.
  - exists []. simpl. rewrite app_nil_r. split_and!; try done.
    left. split; [done|]. intros x Hx. by apply elem_of_nil in Hx.
  - simpl.
    pose proof (call_query_metrics c q s) as Hm.
    pose proof (call_query_cache c q s) as Hc.
    pose proof (call_query_history c q s) as Hh.
    destruct (call_query c q s) as [[e|r] s1]; simpl in Hm, Hc, Hh.
    + assert (Hfail : forall p, metrics (on_failure c e s1) p
                                = apply_event p (metrics s p) (Invoked c q (inl e))).
      { intros p. rewrite (on_failure_apply c q). by rewrite Hm. }
      case_bool_decide as Hlast.
      * exists [Invoked c q (inl e)]. simpl. split_and!; try done.
        -- by apply prefix_cons, prefix_nil.
        -- repeat constructor. by exists c, (inl e).
        -- by repeat constructor.
        -- right. by exists c, e.
      * destruct (IH (on_failure c e s1))
          as (evs & Hhist & Hpre & Hall & Hmet & Hres).
        exists (Invoked c q (inl e) :: evs). split_and!.
        -- rewrite Hhist. simpl. rewrite Hh. by rewrite <- app_assoc.
        -- simpl. by apply prefix_cons.
        -- constructor; [by exists c, (inl e) | done].
        -- intros p. rewrite Hmet. cbn [foldl]. by rewrite Hfail.
        -- destruct (try_providers q providers rest (on_failure c e s1)).1
             as [[msg]|r].
           ++ destruct Hres as (Hcache & Hfs & Hmsg). split_and!.
              ** rewrite Hcache. simpl. by rewrite Hc.
              ** by constructor.
              ** destruct Hmsg as [[-> Hnone] | (p & e' & Hp & Hl & ->)].
                 --- left. split; [done|]. intros x Hx.
                     apply elem_of_cons in Hx as [-> | Hx]; [done | by apply Hnone].
                 --- right. exists p, e'. split_and!; try done.
                     rewrite last_cons. by rewrite Hl.
           ++ destruct Hres as (Hcache & fs & p & -> & Hfs). split.
              ** rewrite Hcache. simpl. by rewrite Hc.
              ** exists (Invoked c q (inl e) :: fs), p. split; [done|].
                 by constructor.
    + exists [Invoked c q (inr r)]. simpl. split_and!; try done.
      * by apply prefix_cons, prefix_nil.
      * repeat constructor. by exists c, (inr r).
      * intros p. rewrite <- Hm. apply (on_success_apply c q r s1 p).
      * by rewrite Hc.
      * by exists [], c.
Qed.

(** ** The whole trace of one call of [query] *)

Lemma query_trace q candidates use_cache s :
  exists evs,
    history (query q candidates use_cache s).2 = history s ++ evs
    /\ target <$> evs `prefix_of` default _get_default_providers candidates
    /\ Forall (fun ev => exists p o, ev = Invoked p q o) evs
    /\ (forall p, metrics (query q candidates use_cache s).2 p
                  = foldl (apply_event p) (metrics s p) evs)
    /\ match (query q candidates use_cache s).1 with
       | inr r =>
           cache (query q candidates use_cache s).2 = <[hash q := r]> (cache s)
           /\ ((evs = [] /\ use_cache = true /\ cache s !! hash q = Some r)
               \/ exists fs p, evs = fs ++ [Invoked p q (inr r)] /\ Forall is_failure fs)
       | inl (RuntimeError msg) =>
           cache (query q candidates use_cache s).2 = cache s
           /\ Forall is_failure evs
           /\ ((msg = "No providers available"
                /\ default _get_default_providers candidates = [] /\ evs = [])
               \/ exists p e, last (default _get_default_providers candidates) = Some p
                              /\ last evs = Some (Invoked p q (inl e))
                              /\ msg = "All providers failed: " +:+ e)
       end.
Proof.
  unfold query.
  destruct (if use_cache then cache s !! hash q else None) as [cached|] eqn:Hlook.
  - exists []. simpl. rewrite app_nil_r.
    assert (use_cache = true /\ cache s !! hash q = Some cached) as [-> Hc]
      by (by destruct use_cache).
    split_and!; try done.
    + apply prefix_nil.
    + by rewrite insert_id.
    + by left.
  - set (providers := default _get_default_providers candidates).
    destruct (try_providers_trace q providers providers s)
      as (evs & Hhist & Hpre & Hall & Hmet & Hres).
    exists evs. split_and!; try done.
    destruct (try_providers q providers providers s).1 as [[msg]|r].
    + destruct Hres as (Hc & Hfs & [[-> Hnone] | Hlast]); split_and!; try done.
      * left. assert (providers = []) as Hnil.
        { destruct (last providers) as [x|] eqn:Hl; [|by apply last_None].
          exfalso. apply (Hnone x); [by apply last_Some_elem_of | done]. }
        split_and!; try done.
        rewrite Hnil in Hpre. apply prefix_nil_inv in Hpre.
        by apply fmap_nil_inv in Hpre.
      * by right.
    + destruct Hres as (Hc & Hfs). split; [done | by right].
Qed.

(** C6, as the code has it. With an empty candidate list, a call that the
    cache does not answer (caching disabled, or a fingerprint that can be
    computed and has no entry) fails at once with
    [RuntimeError("No providers available")]: the state is the one it
    started from, no backend was invoked and no metrics record written.
    That message belongs to the empty list alone: whatever the query, the
    cache and the backends, a [RuntimeError] raised by a call over a
    non-empty list has a message of the form [All providers failed: e]. *)
Theorem query_no_providers q use_cache s :
  use_cache = false \/ (hashable q = true /\ cache s !! hash q = None) ->
  query q (Some []) use_cache s = (inl (RuntimeError "No providers available"), s)
  /\ forall q' candidates use_cache' s' msg s'',
       default _get_default_providers candidates <> [] ->
       query q' candidates use_cache' s' = (inl (RuntimeError msg), s'') ->
       msg <> "No providers available"
       /\ exists e, msg = "All providers failed: " +:+ e.
Proof.
  intros Hmiss. split.
  - rewrite query_uncached; [done|]. destruct Hmiss as [-> | [_ ->]]; auto.
  - intros q' candidates use_cache' s' msg s'' Hne Hq.
    destruct (query_trace q' candidates use_cache' s') as (evs & _ & _ & _ & _ & Hres).
    rewrite Hq in Hres. simpl in Hres.
    destruct Hres as (_ & _ & [(_ & Hnil & _) | (p & e & _ & _ & ->)]); [done|].
    split; [discriminate | by exists e].
Qed.

(** X3. What a call of [query] can raise. For a query whose fingerprint can
    be computed: when the call raises, the cache is as it was and every backend it invoked raised.  The message is
    [No providers available] only when the candidate list is empty, and
    then the state is untouched; otherwise it is [All providers failed: e],
    [e] being the error of the invocation logged last, made to a backend
    that equals the last entry of the list. *)
Theorem query_error_cases q candidates use_cache s msg s' :
  hashable q = true ->
  query q candidates use_cache s = (inl (RuntimeError msg), s') ->
  cache s' = cache s
  /\ Forall is_failure (events_since s s')
  /\ ((msg = "No providers available"
       /\ default _get_default_providers candidates = [] /\ s' = s)
      \/ exists p e,
           last (default _get_default_providers candidates) = Some p
           /\ last (history s') = Some (Invoked p q (inl e))
           /\ msg = "All providers failed: " +:+ e).
Proof.
  intros _ Hq.
  destruct (query_trace q candidates use_cache s)
    as (evs & Hhist & _ & _ & _ & Hres).
  rewrite Hq in Hhist, Hres. simpl in Hhist, Hres.
  destruct Hres as (Hc & Hfs & Hmsg).
  rewrite (events_since_app _ _ _ Hhist). split_and!; try done.
  destruct Hmsg as [(-> & Hnil & ->) | (p & e & Hp & Hl & ->)].
  - left. split_and!; try done.
    unfold query in Hq. rewrite Hnil in Hq.
    destruct (if use_cache then cache s !! hash q else None); [done|].
    simpl in Hq. by injection Hq as <-.
  - right. exists p, e. split_and!; try done.
    rewrite Hhist, last_app. by rewrite Hl.
Qed.

(** X4. The order of the invocations of one call, for a query whose
    fingerprint can be computed. The call only appends to the log; the backends it invokes, in the order of invocation, are an
    initial segment of the candidate list (none skipped, none out of order),
    each invoked with the query of the call; and every invocation before
    the last one of the call raised. *)
Theorem query_invokes_initial_segment q candidates use_cache s :
  hashable q = true ->
  history (query q candidates use_cache s).2
  = history s ++ events_since s (query q candidates use_cache s).2
  /\ target <$> events_since s (query q candidates use_cache s).2
     `prefix_of` default _get_default_providers candidates
  /\ Forall (fun ev => exists p o, ev = Invoked p q o)
            (events_since s (query q candidates use_cache s).2)
  /\ forall fs ev,
       events_since s (query q candidates use_cache s).2 = fs ++ [ev] ->
       Forall is_failure fs.
Proof.
  intros _.
  destruct (query_trace q candidates use_cache s)
    as (evs & Hhist & Hpre & Hall & _ & Hres).
  rewrite (events_since_app _ _ _ Hhist). split_and!; try done.
  intros fs ev Hsplit.
  destruct (query q candidates use_cache s).1 as [[msg]|r].
  - destruct Hres as (_ & Hfs & _). rewrite Hsplit in Hfs.
    by apply Forall_app in Hfs as [Hfs _].
  - destruct Hres as (_ & [(Hnil & _) | (fs' & p & Hsplit' & Hfs)]).
    + rewrite Hnil in Hsplit. by destruct fs.
    + rewrite Hsplit' in Hsplit. by apply app_inj_tail in Hsplit as [-> _].
Qed.

(** X5. What a call of [query] does to the cache: a call that returns a
    response leaves the cache holding that response under the fingerprint
    of the query and otherwise as it was; a call that raises leaves the
    cache as it was.  So the cache never shrinks and grows by at most one
    entry per call. *)
Theorem query_cache_effect q candidates use_cache s :
  cache (query q candidates use_cache s).2
  = match (query q candidates use_cache s).1 with
    | inr r => <[hash q := r]> (cache s)
    | inl _ => cache s
    end
  /\ (get_cache_size s <= get_cache_size (query q candidates use_cache s).2)%nat
  /\ (get_cache_size (query q candidates use_cache s).2 <= S (get_cache_size s))%nat.
Proof.
  destruct (query_trace q candidates use_cache s) as (evs & _ & _ & _ & _ & Hres).
  unfold get_cache_size.
  destruct (query q candidates use_cache s).1 as [[msg]|r].
  - destruct Hres as (-> & _). split_and!; [done | lia | lia].
  - destruct Hres as (-> & _). rewrite map_size_insert.
    split; [done|]. destruct (cache s !! hash q); simpl; lia.
Qed.

(** ** The metrics as a fold of the log *)

Lemma health_check_trace s :
  exists evs,
    history (health_check s).2 = history s ++ evs
    /\ forall p, metrics (health_check s).2 p = foldl (apply_event p) (metrics s p) evs.
Proof.
  destruct (health_check_spec s) as (o & Hhist & Hall).
  eexists. split; [exact Hhist|].
  intros p. destruct (Hall p) as [_ ->]. by destruct p.
Qed.

Lemma step_trace s (c : Call) :
  exists evs,
    history (step s c) = history s ++ evs
    /\ forall p, metrics (step s c) p = foldl (apply_event p) (metrics s p) evs.
Proof.
  destruct c as [q candidates use_cache | |]; simpl.
  - destruct (query_trace q candidates use_cache s) as (evs & Hhist & _ & _ & Hmet & _).
    by exists evs.
  - apply health_check_trace.
  - exists []. by rewrite app_nil_r.
Qed.

Lemma run_trace (calls : list Call) : forall s,
  exists evs,
    history (run calls s) = history s ++ evs
    /\ forall p, metrics (run calls s) p = foldl (apply_event p) (metrics s p) evs.
Proof.
  unfold run. induction calls as [|c calls IH]; intros s; simpl.
  - exists []. by rewrite app_nil_r.
  - destruct (step_trace s c) as (evs1 & Hh1 & Hm1).
    destruct (IH (step s c)) as (evs2 & Hh2 & Hm2).
    exists (evs1 ++ evs2). split.
    + by rewrite Hh2, Hh1, <- app_assoc.
    + intros p. by rewrite Hm2, Hm1, foldl_app.
Qed.

(** From a fresh router, the record of each provider is the fold of its
    default record over the log. *)
Lemma run_init_replay (calls : list Call) (now : string) (w : World) p :
  metrics (run calls (init now w)) p
  = foldl (apply_event p) (fresh_metrics now p) (history (run calls (init now w))).
Proof.
  destruct (run_trace calls (init now w)) as (evs & Hh & Hm).
  simpl in Hh. by rewrite Hh, Hm.
Qed.

(** *** Reading the fold field by field *)

Lemma replay_requests_failed p evs : forall m,
  requests_failed (foldl (apply_event p) m evs)
  = requests_failed m + Z.of_nat (length (failures_of p evs)).
Proof.
  induction evs as [|[c q' [e|r] | c o] evs IH]; intros m; simpl;
    [lia | | | ]; rewrite IH; destruct (decide (c = p)); simpl; lia.
Qed.

Lemma replay_requests_success p evs : forall m,
  requests_success (foldl (apply_event p) m evs)
  = requests_success m + Z.of_nat (length (answers_of p evs)).
Proof.
  induction evs as [|[c q' [e|r] | c o] evs IH]; intros m; simpl;
    [lia | | | ]; rewrite IH; destruct (decide (c = p)); simpl; lia.
Qed.

Lemma replay_requests_total p evs : forall m,
  requests_total (foldl (apply_event p) m evs)
  = requests_total m + Z.of_nat (length (answers_of p evs)).
Proof.
  induction evs as [|[c q' [e|r] | c o] evs IH]; intros m; simpl;
    [lia | | | ]; rewrite IH; destruct (decide (c = p)); simpl; lia.
Qed.

Lemma replay_total_cost p evs : forall m,
  total_cost (foldl (apply_event p) m evs)
  = foldl (fun acc r => PrimFloat.add acc (cost r)) (total_cost m) (answers_of p evs).
Proof.
  induction evs as [|[c q' [e|r] | c o] evs IH]; intros m; simpl;
    [done | | | ]; rewrite IH; by destruct (decide (c = p)).
Qed.

Lemma replay_last_error p evs : forall m,
  last_error (foldl (apply_event p) m evs)
  = match last (failures_of p evs) with Some e => Some e | None => last_error m end.
Proof.
  induction evs as [|[c q' [e|r] | c o] evs IH]; intros m; simpl;
    [done | | | ]; rewrite IH; destruct (decide (c = p)); simpl; try done.
  rewrite last_cons. by destruct (last (failures_of p evs)).
Qed.

Lemma replay_status p evs : forall m,
  status (foldl (apply_event p) m evs)
  = match last (probes_of p evs) with
    | Some is_healthy => if is_healthy then HEALTHY else UNHEALTHY
    | None => status m
    end.
Proof.
  induction evs as [|[c q' [e|r] | c o] evs IH]; intros m; simpl;
    [done | | | ]; rewrite IH; destruct (decide (c = p)); simpl; try done.
  rewrite last_cons. by destruct (last (probes_of p evs)).
Qed.

Lemma replay_fixed_fields p evs : forall m,
  name (foldl (apply_event p) m evs) = name m
  /\ avg_latency_ms (foldl (apply_event p) m evs) = avg_latency_ms m
  /\ last_checked (foldl (apply_event p) m evs) = last_checked m.
Proof.
  induction evs as [|[c q' [e|r] | c o] evs IH]; intros m; simpl;
    [done | | | ]; destruct (IH (apply_event p m
      ltac:(first [exact (Invoked c q' (inl e)) | exact (Invoked c q' (inr r))
                  | exact (Probed c o)]))) as (Hn & Ha & Hl);
    simpl in Hn, Ha, Hl; rewrite Hn, Ha, Hl; by destruct (decide (c = p)).
Qed.

(** X6. The counters count invocations. From a fresh router, after any
    sequence of calls whose queries have a fingerprint that can be
    computed, [requests_failed] of a provider is the number of its
    invocations that raised, and [requests_success] and [requests_total] are
    both the number of its invocations that answered; answers served from
    the cache and health probes count nowhere. *)
Theorem counters_count_invocations (calls : list Call) (now : string) (w : World) p :
  forallb hashable_call calls = true ->
  requests_failed (metrics (run calls (init now w)) p)
  = Z.of_nat (length (failures_of p (history (run calls (init now w)))))
  /\ requests_success (metrics (run calls (init now w)) p)
     = Z.of_nat (length (answers_of p (history (run calls (init now w)))))
  /\ requests_total (metrics (run calls (init now w)) p)
     = Z.of_nat (length (answers_of p (history (run calls (init now w))))).
Proof.
  intros _. rewrite run_init_replay.
  by rewrite replay_requests_failed, replay_requests_success, replay_requests_total.
Qed.

(** X7. The accumulated cost. From a fresh router, after any sequence of
    calls, [total_cost] of a provider is the float sum, taken from [0.0] in
    the order the answers came, of the costs of the responses that provider
    gave. *)
Theorem total_cost_sums_answers (calls : list Call) (now : string) (w : World) p :
  total_cost (metrics (run calls (init now w)) p)
  = foldl (fun acc r => PrimFloat.add acc (cost r)) 0%float
          (answers_of p (history (run calls (init now w)))).
Proof. rewrite run_init_replay. by rewrite replay_total_cost. Qed.

(** X8. The last error. From a fresh router, after any sequence of calls
    whose queries have a fingerprint that can be computed, [last_error] of a provider is the message of its most recent invocation
    that raised, and [None] exactly when none of its invocations ever
    raised; later successes do not reset it. *)
Theorem last_error_is_latest_failure (calls : list Call) (now : string) (w : World) p :
  forallb hashable_call calls = true ->
  last_error (metrics (run calls (init now w)) p)
  = last (failures_of p (history (run calls (init now w)))).
Proof.
  intros _. rewrite run_init_replay, replay_last_error. simpl.
  by destruct (last (failures_of p _)).
Qed.

(** X9. The status. From a fresh router, after any sequence of calls, the
    status of a provider is [UNHEALTHY] when its most recent health probe
    raised or answered [False], and [HEALTHY] otherwise (never probed, or
    last probe [True]).  No call ever sets [DEGRADED], and the availability
    is 0 or 1 accordingly. *)
Theorem status_follows_latest_probe (calls : list Call) (now : string) (w : World) p :
  status (metrics (run calls (init now w)) p)
  = match last (probes_of p (history (run calls (init now w)))) with
    | Some false => UNHEALTHY
    | _ => HEALTHY
    end
  /\ status (metrics (run calls (init now w)) p) <> DEGRADED
  /\ (availability (metrics (run calls (init now w)) p)
      == match last (probes_of p (history (run calls (init now w)))) with
         | Some false => 0
         | _ => 1
         end)%Q.
Proof.
  assert (Hst : status (metrics (run calls (init now w)) p)
                = match last (probes_of p (history (run calls (init now w)))) with
                  | Some false => UNHEALTHY
                  | _ => HEALTHY
                  end).
  { rewrite run_init_replay, replay_status. simpl.
    by destruct (last (probes_of p _)) as [[]|]. }
  split_and!; [done | | ].
  - rewrite Hst. by destruct (last (probes_of p _)) as [[]|].
  - unfold availability. rewrite Hst.
    assert (Hrate : (success_rate (metrics (run calls (init now w)) p) == 1)%Q).
    { apply success_rate_all_succeeded.
      rewrite run_init_replay. by rewrite replay_requests_success, replay_requests_total. }
    by destruct (last (probes_of p _)) as [[]|].
Qed.

(** X10. Fields no call writes. From a fresh router, after any sequence of
    calls, [last_checked] of each provider's record is still the value that
    record got at construction (a health sweep does not refresh it),
    [avg_latency_ms] is still [0.0] (latencies of responses are not
    accumulated) and [name] is the provider's own. *)
Theorem last_checked_and_latency_never_written (calls : list Call) (now : string)
    (w : World) p :
  last_checked (metrics (run calls (init now w)) p)
  = last_checked (metrics (init now w) p)
  /\ avg_latency_ms (metrics (run calls (init now w)) p) = 0%float
  /\ name (metrics (run calls (init now w)) p) = p.
Proof.
  rewrite run_init_replay.
  destruct (replay_fixed_fields p (history (run calls (init now w))) (fresh_metrics now p))
    as (-> & -> & ->).
  done.
Qed.

(** ** The health sweep changes the status and nothing else *)

Lemma check_provider_cache (health : gmap ProviderName bool) s p :
  cache (check_provider (health, s) p).2 = cache s.
Proof.
  unfold check_provider, call_health_check.
  by destruct (backend_health_check p (world s)) as [[e|is_healthy] w].
Qed.

Lemma health_check_cache s : cache (health_check s).2 = cache s.
Proof.
  unfold health_check. cbn [foldl].
  pose proof (check_provider_cache ∅ s GEMINI) as H1.
  destruct (check_provider (∅, s) GEMINI) as [h1 s1].
  pose proof (check_provider_cache h1 s1 CLAUDE) as H2.
  destruct (check_provider (h1, s1) CLAUDE) as [h2 s2].
  pose proof (check_provider_cache h2 s2 OPENAI) as H3.
  destruct (check_provider (h2, s2) OPENAI) as [h3 s3].
  simpl in *. congruence.
Qed.

(** X11. What a health sweep changes. From any state, [health_check]
    changes the [status] field of each provider's record and no other
    field, and leaves the cache alone; the status it leaves is never
    [DEGRADED] (a degraded provider becomes healthy or unhealthy), and the
    dictionary it returns says [True] for a provider exactly when that
    provider's status is now [HEALTHY]. *)
Theorem health_check_sets_status_only s p :
  metrics (health_check s).2 p
  = set_status (status (metrics (health_check s).2 p)) (metrics s p)
  /\ cache (health_check s).2 = cache s
  /\ status (metrics (health_check s).2 p) <> DEGRADED
  /\ (health_check s).1 !! p
     = Some (bool_decide (status (metrics (health_check s).2 p) = HEALTHY)).
Proof.
  destruct (health_check_spec s) as (o & _ & Hall).
  destruct (Hall p) as [Hh Hm]. rewrite Hh, Hm. simpl.
  split_and!; [done | apply health_check_cache | | ];
    by destruct (reported (o p)).
Qed.

(** ** Where cache entries come from *)

Lemma step_cache_provenance s (c : Call) :
  (forall k r, cache s !! k = Some r ->
               exists p q, k = hash q /\ Invoked p q (inr r) ∈ history s) ->
  forall k r, cache (step s c) !! k = Some r ->
              exists p q, k = hash q /\ Invoked p q (inr r) ∈ history (step s c).
Proof.
  intros Hinv k r Hk. destruct c as [q candidates use_cache | |]; simpl in *.
  - destruct (query_trace q candidates use_cache s)
      as (evs & Hhist & _ & _ & _ & Hres).
    rewrite Hhist.
    assert (Hold : forall k' r', cache s !! k' = Some r' ->
                     exists p q', k' = hash q' /\ Invoked p q' (inr r') ∈ history s ++ evs).
    { intros k' r' Hk'. destruct (Hinv _ _ Hk') as (p & q' & -> & Hin).
      exists p, q'. split; [done|]. apply elem_of_app. by left. }
    destruct (query q candidates use_cache s).1 as [[msg]|r0].
    + destruct Hres as (Hc & _). rewrite Hc in Hk. by apply Hold.
    + destruct Hres as (Hc & Hfrom). rewrite Hc in Hk.
      destruct (decide (k = hash q)) as [->|Hne].
      * rewrite lookup_insert_eq in Hk. injection Hk as ->.
        destruct Hfrom as [(_ & _ & Hhit) | (fs & p & -> & _)].
        -- by apply Hold.
        -- exists p, q. split; [done|]. rewrite !elem_of_app. right. right.
           by apply list_elem_of_singleton.
      * rewrite lookup_insert_ne in Hk by done. by apply Hold.
  - rewrite health_check_cache in Hk. destruct (Hinv _ _ Hk) as (p & q & -> & Hin).
    exists p, q. split; [done|].
    destruct (health_check_trace s) as (evs & -> & _). apply elem_of_app. by left.
  - by rewrite lookup_empty in Hk.
Qed.

Lemma run_cache_provenance (calls : list Call) : forall s,
  (forall k r, cache s !! k = Some r ->
               exists p q, k = hash q /\ Invoked p q (inr r) ∈ history s) ->
  forall k r, cache (run calls s) !! k = Some r ->
              exists p q, k = hash q /\ Invoked p q (inr r) ∈ history (run calls s).
Proof.
  unfold run. induction calls as [|c calls IH]; intros s Hinv; simpl; [done|].
  apply IH. by apply step_cache_provenance.
Qed.

(** X12. Where cache entries come from. From a fresh router, after any
    sequence of calls, every entry of the cache is a response that some
    backend returned for a query whose fingerprint is the key of the
    entry. *)
Theorem cache_entries_come_from_backends (calls : list Call) (now : string)
    (w : World) (k : string) (r : Response) :
  cache (run calls (init now w)) !! k = Some r ->
  exists p q, k = hash q /\ Invoked p q (inr r) ∈ history (run calls (init now w)).
Proof.
  apply run_cache_provenance. intros k' r' Hk. simpl in Hk.
  by rewrite lookup_empty in Hk.
Qed.

(** X13. Clearing the cache. After [clear_cache] the cache is empty and the
    metrics are as before; the next call of [query] over a non-empty
    candidate list, with caching disabled or with caching enabled and a
    fingerprint that can be computed, starts by invoking its first
    candidate instead of answering from memory. *)
Theorem clear_cache_forces_invocation q p rest use_cache s :
  use_cache = false \/ hashable q = true ->
  get_cache_size (clear_cache s) = 0%nat
  /\ metrics (clear_cache s) = metrics s
  /\ head (events_since (clear_cache s)
             (query q (Some (p :: rest)) use_cache (clear_cache s)).2)
     = Some (Invoked p q (backend_query p q (world s)).1).
Proof.
  intros _. split_and!; [apply map_size_empty | done |].
  rewrite query_uncached by (right; apply lookup_empty).
  simpl. unfold call_query. simpl.
  destruct (backend_query p q (world s)) as [[e|r] w'].
  - case_bool_decide.
    + by rewrite (events_since_app _ _ [Invoked p q (inl e)]).
    + match goal with
      | |- context [try_providers q ?ps rest ?s2] =>
          destruct (try_providers_trace q ps rest s2) as (evs & Hh & _)
      end.
      rewrite (events_since_app _ _ (Invoked p q (inl e) :: evs)); [done|].
      rewrite Hh. simpl. by rewrite <- app_assoc.
  - by rewrite (events_since_app _ _ [Invoked p q (inr r)]).
Qed.

(** ** Choosing the healthiest provider *)

Lemma Qgt_bool_proper (x x' y y' : Q) :
  (x == x')%Q -> (y == y')%Q -> Qgt_bool x y = Qgt_bool x' y'.
Proof. intros Hx Hy. unfold Qgt_bool. f_equal. by apply Qleb_comp. Qed.

Lemma run_init_status_cases (calls : list Call) (now : string) (w : World) p :
  (status (metrics (run calls (init now w)) p) = HEALTHY
   /\ (availability (metrics (run calls (init now w)) p) == 1)%Q)
  \/ (status (metrics (run calls (init now w)) p) = UNHEALTHY
      /\ (availability (metrics (run calls (init now w)) p) == 0)%Q).
Proof.
  assert (Hrate : (success_rate (metrics (run calls (init now w)) p) == 1)%Q).
  { apply success_rate_all_succeeded.
    rewrite run_init_replay. by rewrite replay_requests_success, replay_requests_total. }
  unfold availability.
  assert (Hst : status (metrics (run calls (init now w)) p) = HEALTHY
                \/ status (metrics (run calls (init now w)) p) = UNHEALTHY).
  { rewrite run_init_replay, replay_status. simpl.
    destruct (last (probes_of p _)) as [[]|]; auto. }
  destruct Hst as [-> | ->]; [by left | by right].
Qed.

(** X14. The healthiest provider of a router that started fresh. After any
    sequence of calls, [get_healthiest_provider] returns the first provider in
    declaration order whose status is [HEALTHY], whatever failures the
    providers have recorded; when no provider is [HEALTHY] it returns GEMINI,
    although GEMINI is then unhealthy itself. *)
Theorem healthiest_is_first_healthy (calls : list Call) (now : string) (w : World) :
  get_healthiest_provider (run calls (init now w))
  = if bool_decide (status (metrics (run calls (init now w)) GEMINI) = HEALTHY)
    then GEMINI
    else if bool_decide (status (metrics (run calls (init now w)) CLAUDE) = HEALTHY)
    then CLAUDE
    else if bool_decide (status (metrics (run calls (init now w)) OPENAI) = HEALTHY)
    then OPENAI
    else GEMINI.
Proof.
  unfold get_healthiest_provider, max_ProviderName. cbn [foldl].
  destruct (run_init_status_cases calls now w GEMINI) as [[-> HaG] | [-> HaG]];
  destruct (run_init_status_cases calls now w CLAUDE) as [[-> HaC] | [-> HaC]];
  destruct (run_init_status_cases calls now w OPENAI) as [[-> HaO] | [-> HaO]];
    rewrite (Qgt_bool_proper _ _ _ _ HaC HaG); simpl;
    first [ rewrite (Qgt_bool_proper _ _ _ _ HaO HaG)
          | rewrite (Qgt_bool_proper _ _ _ _ HaO HaC) ]; done.
Qed.

End RouterLaws.

(** * Persistence and the cost table *)

Section StrategyLaws.

Context {World : Type} `{!ProviderBackend World} `{!PyLib}.
Implicit Types (s : @State World) (p : ProviderName).

Lemma save_metrics_lookup s p :
  save_metrics s !! value p
  = Some {| saved_requests_total := Some (requests_total (metrics s p));
            saved_requests_success := Some (requests_success (metrics s p));
            saved_requests_failed := Some (requests_failed (metrics s p));
            saved_total_cost := Some (total_cost (metrics s p));
            saved_last_checked := Some (last_checked (metrics s p)) |}.
Proof. unfold save_metrics. cbn [foldl iter_ProviderName]. by destruct p. Qed.

(** The loop of [_load_metrics], provider by provider. *)
Lemma load_metrics_lookup (data : gmap string SavedMetrics) s p :
  metrics (_load_metrics (Some data) s) p
  = match data !! value p with
    | Some provider_data => load_entry provider_data (metrics s p)
    | None => metrics s p
    end.
Proof.
  unfold _load_metrics. destruct p; cbn [foldl iter_ProviderName value];
    destruct (data !! "gemini"), (data !! "claude"), (data !! "openai"); simpl;
    repeat first [ rewrite metrics_insert_eq | rewrite metrics_insert_ne by done ];
    done.
Qed.

Lemma load_metrics_rest (file : option (gmap string SavedMetrics)) s :
  cache (_load_metrics file s) = cache s
  /\ world (_load_metrics file s) = world s
  /\ history (_load_metrics file s) = history s.
Proof.
  destruct file as [data|]; [|done].
  unfold _load_metrics. cbn [foldl iter_ProviderName value].
  by destruct (data !! "gemini"), (data !! "claude"), (data !! "openai").
Qed.

(** X15. Restarting from saved metrics. A router constructed from the file
    that [save_metrics] wrote for a router in state [s] continues the four
    persisted quantities where [s] left them: after any sequence of calls
    whose queries have a fingerprint that can be computed, its counters are
    those of [s] plus the invocations of the new router, and its
    [total_cost] is the float sum started from the one of [s].  Nothing else
    survives the restart: [last_error] and [status] depend on the new log
    only, [last_checked] of each record is the value the new construction
    gave it (not the saved one) and the cache starts empty. *)
Theorem restart_continues_counters s (calls : list Call) (now : string) (w : World) p :
  forallb hashable_call calls = true ->
  requests_total (metrics (run calls (init_from (Some (save_metrics s)) now w)) p)
  = requests_total (metrics s p)
    + Z.of_nat (length (answers_of p
        (history (run calls (init_from (Some (save_metrics s)) now w)))))
  /\ requests_success (metrics (run calls (init_from (Some (save_metrics s)) now w)) p)
     = requests_success (metrics s p)
       + Z.of_nat (length (answers_of p
           (history (run calls (init_from (Some (save_metrics s)) now w)))))
  /\ requests_failed (metrics (run calls (init_from (Some (save_metrics s)) now w)) p)
     = requests_failed (metrics s p)
       + Z.of_nat (length (failures_of p
           (history (run calls (init_from (Some (save_metrics s)) now w)))))
  /\ total_cost (metrics (run calls (init_from (Some (save_metrics s)) now w)) p)
     = foldl (fun acc r => PrimFloat.add acc (cost r)) (total_cost (metrics s p))
         (answers_of p (history (run calls (init_from (Some (save_metrics s)) now w))))
  /\ last_error (metrics (run calls (init_from (Some (save_metrics s)) now w)) p)
     = last (failures_of p (history (run calls (init_from (Some (save_metrics s)) now w))))
  /\ status (metrics (run calls (init_from (Some (save_metrics s)) now w)) p)
     = match last (probes_of p
               (history (run calls (init_from (Some (save_metrics s)) now w)))) with
       | Some false => UNHEALTHY
       | _ => HEALTHY
       end
  /\ last_checked (metrics (run calls (init_from (Some (save_metrics s)) now w)) p)
     = last_checked (metrics (init now w) p)
  /\ cache (init_from (Some (save_metrics s)) now w) = ∅.
Proof.
  intros _.
  destruct (run_trace calls (init_from (Some (save_metrics s)) now w))
    as (evs & Hh & Hm).
  destruct (load_metrics_rest (Some (save_metrics s)) (init now w)) as (Hc & _ & Hh0).
  unfold init_from in *. rewrite Hh0 in Hh.
  change (history (init now w)) with (@nil Event) in Hh. rewrite app_nil_l in Hh.
  rewrite Hh, Hm, Hc.
  rewrite load_metrics_lookup, save_metrics_lookup.
  rewrite replay_requests_total, replay_requests_success, replay_requests_failed,
    replay_total_cost, replay_last_error, replay_status.
  destruct (replay_fixed_fields p evs
              (load_entry
                 {| saved_requests_total := Some (requests_total (metrics s p));
                    saved_requests_success := Some (requests_success (metrics s p));
                    saved_requests_failed := Some (requests_failed (metrics s p));
                    saved_total_cost := Some (total_cost (metrics s p));
                    saved_last_checked := Some (last_checked (metrics s p)) |}
                 (metrics (init now w) p))) as (_ & _ & ->).
  simpl. split_and!; try done;
    first [ by destruct (last (failures_of p evs))
          | by destruct (last (probes_of p evs)) as [[]|] ].
Qed.

(** X16. What loading reads. [_load_metrics] never touches the cache nor
    the [status], [last_error], [last_checked], [avg_latency_ms] and [name]
    of any record.  For a provider that has an entry in the file the four
    persisted fields are overwritten, a key missing from the entry giving
    [0] (not the current value); for a provider without an entry, and when
    there is no readable file at all, the record is left as it is. *)
Theorem load_metrics_effect (file : option (gmap string SavedMetrics)) s p :
  cache (_load_metrics file s) = cache s
  /\ status (metrics (_load_metrics file s) p) = status (metrics s p)
  /\ last_error (metrics (_load_metrics file s) p) = last_error (metrics s p)
  /\ last_checked (metrics (_load_metrics file s) p) = last_checked (metrics s p)
  /\ avg_latency_ms (metrics (_load_metrics file s) p) = avg_latency_ms (metrics s p)
  /\ name (metrics (_load_metrics file s) p) = name (metrics s p)
  /\ match file ≫= (fun data => data !! value p) with
     | Some provider_data =>
         requests_total (metrics (_load_metrics file s) p)
         = default 0 (saved_requests_total provider_data)
         /\ requests_success (metrics (_load_metrics file s) p)
            = default 0 (saved_requests_success provider_data)
         /\ requests_failed (metrics (_load_metrics file s) p)
            = default 0 (saved_requests_failed provider_data)
         /\ total_cost (metrics (_load_metrics file s) p)
            = default 0%float (saved_total_cost provider_data)
     | None => metrics (_load_metrics file s) p = metrics s p
     end.
Proof.
  destruct (load_metrics_rest file s) as (Hc & _ & _).
  destruct file as [data|]; [|done].
  rewrite load_metrics_lookup. simpl.
  split; [done|]. by destruct (data !! value p).
Qed.

(** ** The order of floats, as far as choosing a minimum needs it *)

Lemma SFltb_rank (a b : spec_float) :
  SFltb a b = true <->
  match SF_rank a, SF_rank b with
  | Some ra, Some rb => rank_lt ra rb
  | _, _ => False
  end.
Proof.
  unfold SFltb, rank_lt.
  destruct a as [[]|[]| |[] ma ea], b as [[]|[]| |[] mb eb]; simpl;
    try (split; [discriminate | lia]); try (split; [lia | done]);
    try (split; [done | discriminate || lia]);
    change (Pos.compare_cont Eq ma mb) with (Pos.compare ma mb);
    destruct (Z.compare_spec ea eb); try (split; [discriminate | lia]);
    try (split; [lia | done]);
    destruct (Pos.compare_spec ma mb); simpl;
    first [ split; [discriminate | lia] | split; [lia | done] ].
Qed.

Lemma ltb_asym (x y : float) : PrimFloat.ltb x y = true -> PrimFloat.ltb y x = false.
Proof.
  rewrite !ltb_spec. intros Hxy. apply SFltb_rank in Hxy.
  destruct (SFltb (Prim2SF y) (Prim2SF x)) eqn:Hyx; [|done].
  apply SFltb_rank in Hyx.
  destruct (SF_rank (Prim2SF x)) as [[[]]|], (SF_rank (Prim2SF y)) as [[[]]|];
    unfold rank_lt in *; simpl in *; try done; lia.
Qed.

Lemma ltb_trans (x y z : float) :
  PrimFloat.ltb x y = true -> PrimFloat.ltb y z = true -> PrimFloat.ltb x z = true.
Proof.
  rewrite !ltb_spec. intros Hxy Hyz.
  apply SFltb_rank in Hxy. apply SFltb_rank in Hyz. apply SFltb_rank.
  destruct (SF_rank (Prim2SF x)) as [[[]]|], (SF_rank (Prim2SF y)) as [[[]]|],
    (SF_rank (Prim2SF z)) as [[[]]|];
    unfold rank_lt in *; simpl in *; try done; lia.
Qed.

(** X17. The cheapest provider. Whatever the cost table of the backends is,
    no provider is strictly cheaper than the one [get_cheapest_provider]
    returns, and the returned provider is GEMINI, the first declared, unless
    it is strictly cheaper than GEMINI.  The choice reads the cost table
    only, never the metrics. *)
Theorem cheapest_is_minimal p :
  PrimFloat.ltb (cost_per_1k_tokens p) (cost_per_1k_tokens get_cheapest_provider) = false
  /\ (get_cheapest_provider = GEMINI
      \/ PrimFloat.ltb (cost_per_1k_tokens get_cheapest_provider)
                       (cost_per_1k_tokens GEMINI) = true).
Proof.
  unfold get_cheapest_provider, min_ProviderName. cbn [foldl].
  destruct (PrimFloat.ltb (cost_per_1k_tokens CLAUDE) (cost_per_1k_tokens GEMINI))
    eqn:Hcg.
  - destruct (PrimFloat.ltb (cost_per_1k_tokens OPENAI) (cost_per_1k_tokens CLAUDE))
      eqn:Hoc.
    + split; [|right; by eapply ltb_trans].
      destruct p.
      * destruct (PrimFloat.ltb (cost_per_1k_tokens GEMINI) (cost_per_1k_tokens OPENAI))
          eqn:Hgo; [|done].
        pose proof (ltb_trans _ _ _ Hgo Hoc) as Hgc.
        apply ltb_asym in Hgc. congruence.
      * by apply ltb_asym.
      * destruct (PrimFloat.ltb (cost_per_1k_tokens OPENAI) (cost_per_1k_tokens OPENAI))
          eqn:Hoo; [|done].
        pose proof (ltb_asym _ _ Hoo). congruence.
    + split; [|by right].
      destruct p; [by apply ltb_asym | | done].
      destruct (PrimFloat.ltb (cost_per_1k_tokens CLAUDE) (cost_per_1k_tokens CLAUDE))
        eqn:Hcc; [|done].
      pose proof (ltb_asym _ _ Hcc). congruence.
  - destruct (PrimFloat.ltb (cost_per_1k_tokens OPENAI) (cost_per_1k_tokens GEMINI))
      eqn:Hog.
    + split; [|by right].
      destruct p.
      * by apply ltb_asym.
      * destruct (PrimFloat.ltb (cost_per_1k_tokens CLAUDE) (cost_per_1k_tokens OPENAI))
          eqn:Hco; [|done].
        pose proof (ltb_trans _ _ _ Hco Hog). congruence.
      * destruct (PrimFloat.ltb (cost_per_1k_tokens OPENAI) (cost_per_1k_tokens OPENAI))
          eqn:Hoo; [|done].
        pose proof (ltb_asym _ _ Hoo). congruence.
    + split; [|by left].
      destruct p; [|done|done].
      destruct (PrimFloat.ltb (cost_per_1k_tokens GEMINI) (cost_per_1k_tokens GEMINI))
        eqn:Hgg; [|done].
      pose proof (ltb_asym _ _ Hgg). congruence.
Qed.

End StrategyLaws.

(** * The router over the backends the constructor installs *)

Section StockRouter.

Context {World : Type} `{!PyRuntime World} `{!PyLib}.
Implicit Types (s : @State World) (q : Query) (p : ProviderName).

(** A record on which no failure and no unhealthy probe has left a mark. *)
Lemma stock_step_clean s (c : Call) :
  (forall p, requests_failed (metrics s p) = 0
             /\ last_error (metrics s p) = None
             /\ status (metrics s p) = HEALTHY) ->
  forall p, requests_failed (metrics (step s c) p) = 0
            /\ last_error (metrics (step s c) p) = None
            /\ status (metrics (step s c) p) = HEALTHY.
Proof.
  intros Hclean p. destruct c as [q candidates use_cache | |]; simpl.
  - unfold query.
    destruct (if use_cache then cache s !! hash q else None); [by apply Hclean|].
    destruct (default _get_default_providers candidates) as [|c rest]; simpl;
      [by apply Hclean|].
    unfold call_query. simpl. unfold builtin_query.
    destruct (datetime_now_isoformat (world s)) as [t w']. simpl.
    destruct (decide (c = p)) as [->|Hne].
    + rewrite metrics_insert_eq. simpl. by apply Hclean.
    + rewrite metrics_insert_ne by done. by apply Hclean.
  - unfold health_check. cbn [foldl]. unfold check_provider, call_health_check. simpl.
    destruct p;
      repeat first [ rewrite metrics_insert_eq | rewrite metrics_insert_ne by done ];
      simpl; destruct (Hclean GEMINI) as (? & ? & ?);
      destruct (Hclean CLAUDE) as (? & ? & ?); destruct (Hclean OPENAI) as (? & ? & ?);
      done.
  - by apply Hclean.
Qed.

(** X18. The stock router records no failure. A router over the three
    backends the constructor installs, started fresh, has after any sequence
    of calls whose queries have a fingerprint that can be computed
    [requests_failed = 0], no [last_error] and status [HEALTHY] for
    every provider; and its cheapest provider is GEMINI. *)
Theorem stock_router_records_no_failure (calls : list Call) (now : string)
    (w : World) p :
  forallb hashable_call calls = true ->
  requests_failed (metrics (run calls (init now w)) p) = 0
  /\ last_error (metrics (run calls (init now w)) p) = None
  /\ status (metrics (run calls (init now w)) p) = HEALTHY
  /\ get_cheapest_provider (World := World) = GEMINI.
Proof.
  intros _.
  assert (Hgen : forall s,
             (forall p, requests_failed (metrics s p) = 0
                        /\ last_error (metrics s p) = None
                        /\ status (metrics s p) = HEALTHY) ->
             forall p, requests_failed (metrics (run calls s) p) = 0
                       /\ last_error (metrics (run calls s) p) = None
                       /\ status (metrics (run calls s) p) = HEALTHY).
  { unfold run. induction calls as [|c calls IH]; intros s Hclean; simpl; [done|].
    apply IH. by apply stock_step_clean. }
  destruct (Hgen (init now w) (fun _ => conj eq_refl (conj eq_refl eq_refl)) p)
    as (Hf & He & Hs).
  split_and!; try done.
Qed.

(** X19. The stock router answers from its first candidate. Over the
    backends the constructor installs, a call of [query] with a non-empty
    candidate list and a query whose fingerprint can be computed never
    raises.  With caching enabled and an entry under the fingerprint it
    returns that entry and changes nothing; in every other case it returns
    the response of the first candidate, the only backend it invokes, with
    [2 * len(text.split())] tokens plus the backend's own surcharge, records
    one success for that candidate and stores the response in the cache. *)
Theorem stock_query_answers_from_first_candidate q (c : ProviderName)
    (rest : list ProviderName) (use_cache : bool) s :
  hashable q = true ->
  (forall cached,
     use_cache = true -> cache s !! hash q = Some cached ->
     query q (Some (c :: rest)) use_cache s = (inr cached, s))
  /\ (use_cache = false \/ cache s !! hash q = None ->
      exists r,
        (query q (Some (c :: rest)) use_cache s).1 = inr r
        /\ provider r = c
        /\ tokens_used r = str_split_len (text q) * 2 + extra_tokens c
        /\ target <$> events_since s (query q (Some (c :: rest)) use_cache s).2 = [c]
        /\ requests_success (metrics (query q (Some (c :: rest)) use_cache s).2 c)
           = requests_success (metrics s c) + 1
        /\ cache (query q (Some (c :: rest)) use_cache s).2 !! hash q = Some r).
Proof.
  intros _. split.
  - intros cached -> Hc. by apply query_cached.
  - intros Hmiss. rewrite query_uncached by done.
    simpl. unfold call_query. simpl. unfold builtin_query.
    destruct (datetime_now_isoformat (world s)) as [t w']. simpl.
    eexists. split; [reflexivity|]. split_and!; try done.
    + unfold events_since. simpl. by rewrite drop_app_length.
    + by rewrite metrics_insert_eq.
    + apply lookup_insert_eq.
Qed.

End StockRouter.

(** * Routing and the metrics *)

Section RoutingLaws.

Context {World : Type} `{!ProviderBackend World} `{!PyLib}.
Implicit Types (s : @State World) (q : Query) (p : ProviderName)
               (providers rest : list ProviderName)
               (candidates : option (list ProviderName))
               (f : ProviderName -> ProviderMetrics).

Lemma try_providers_ignores_metrics q providers : forall rest s f,
  (try_providers q providers rest (with_metrics f s)).1
  = (try_providers q providers rest s).1
  /\ cache (try_providers q providers rest (with_metrics f s)).2
     = cache (try_providers q providers rest s).2
  /\ world (try_providers q providers rest (with_metrics f s)).2
     = world (try_providers q providers rest s).2
  /\ history (try_providers q providers rest (with_metrics f s)).2
     = history (try_providers q providers rest s).2.
Proof.
  induction rest as [|c rest IH]; intros s f; [done|].
  simpl. unfold call_query. simpl.
  destruct (backend_query c q (world s)) as [[e|r] w']; [|done].
  case_bool_decide; [done|].
  exact (IH (on_failure c e
               {| metrics := metrics s; cache := cache s; world := w';
                  history := history s ++ [Invoked c q (inl e)] |})
            (<[c := record_failure e (f c)]> f)).
Qed.

(** X20. Routing never reads the metrics. Whatever status, counters and
    errors the records hold, [query] invokes the same backends in the same
    order, returns or raises the same, and leaves the same cache: a provider
    marked [UNHEALTHY] is tried in its turn like any other. *)
Theorem query_ignores_metrics q candidates (use_cache : bool) s f :
  (query q candidates use_cache (with_metrics f s)).1 = (query q candidates use_cache s).1
  /\ cache (query q candidates use_cache (with_metrics f s)).2
     = cache (query q candidates use_cache s).2
  /\ world (query q candidates use_cache (with_metrics f s)).2
     = world (query q candidates use_cache s).2
  /\ history (query q candidates use_cache (with_metrics f s)).2
     = history (query q candidates use_cache s).2.
Proof.
  unfold query. simpl.
  destruct (if use_cache then cache s !! hash q else None); [done|].
  apply try_providers_ignores_metrics.
Qed.

(** X21. Bypassing the cache. With [use_cache=False] a call over a
    non-empty candidate list starts by invoking its first candidate, whether
    or not the cache holds an entry for the query. *)
Theorem query_without_cache_invokes_first_candidate q p rest s :
  head (events_since s (query q (Some (p :: rest)) false s).2)
  = Some (Invoked p q (backend_query p q (world s)).1).
Proof.
  unfold query. simpl. unfold call_query.
  destruct (backend_query p q (world s)) as [[e|r] w'].
  - case_bool_decide.
    + by rewrite (events_since_app _ _ [Invoked p q (inl e)]).
    + match goal with
      | |- context [try_providers q ?ps rest ?s2] =>
          destruct (try_providers_trace q ps rest s2) as (evs & Hh & _)
      end.
      rewrite (events_since_app _ _ (Invoked p q (inl e) :: evs)); [done|].
      rewrite Hh. simpl. by rewrite <- app_assoc.
  - by rewrite (events_since_app _ _ [Invoked p q (inr r)]).
Qed.

End RoutingLaws.

(** X22. The derived scores of a consistent record. For a record whose
    successes are between 0 and its total, [success_rate] and
    [availability] lie between 0 and 1. *)
Theorem availability_in_unit_interval (m : ProviderMetrics) :
  0 <= requests_success m <= requests_total m ->
  (0 <= success_rate m <= 1)%Q /\ (0 <= availability m <= 1)%Q.
Proof.
  intros [Hlo Hhi].
  assert (Hrate : (0 <= success_rate m <= 1)%Q).
  { unfold success_rate. destruct (requests_total m =? 0) eqn:Hz.
    - split; unfold Qle; simpl; lia.
    - apply Z.eqb_neq in Hz.
      destruct (requests_total m) as [|t|t] eqn:Ht; [done | | lia].
      unfold Qdiv, Qmult, Qinv, Qle, inject_Z. simpl. split; nia. }
  split; [done|]. unfold availability.
  destruct (status m); [done | | ]; split; unfold Qle; simpl; lia.
Qed.

(** * The further properties on concrete runs *)

(** X3 on [all_three_fail]: the call raised, the cache is as it was and all
    three invocations raised. *)
Lemma query_error_cases_witness :
  cache all_three_fail.2
  = cache (boot [Raises "gemini down"; Raises "claude down"; Raises "openai down"])
  /\ Forall is_failure
       (events_since
          (boot [Raises "gemini down"; Raises "claude down"; Raises "openai down"])
          all_three_fail.2).
Proof.
  destruct (query_error_cases (ask "Test" None) None true
              (boot [Raises "gemini down"; Raises "claude down"; Raises "openai down"])
              "All providers failed: openai down" all_three_fail.2)
    as (Hcache & Hfailures & _).
  { vm_compute. reflexivity. }
  { vm_compute. reflexivity. }
  split; [exact Hcache | exact Hfailures].
Defined.

(** X12 on [after_same_query]: the cached response was returned by a backend
    for a query with the fingerprint it is stored under. *)
Lemma cache_entries_come_from_backends_witness :
  exists p q,
    hash (ask "Same query" None) = hash q
    /\ Invoked p q (inr (canned GEMINI (ask "Same query" None)))
       ∈ history after_same_query.
Proof.
  apply (cache_entries_come_from_backends
           [CallQuery (ask "Same query" None) None true]
           "2025-01-01T00:00:00" [] (hash (ask "Same query" None))
           (canned GEMINI (ask "Same query" None))).
  vm_compute. reflexivity.
Defined.

(** X22 on [eight_of_ten]. *)
Lemma availability_in_unit_interval_witness :
  (0 <= success_rate eight_of_ten <= 1)%Q /\ (0 <= availability eight_of_ten <= 1)%Q.
Proof. apply availability_in_unit_interval. simpl. lia. Defined.

(** C6 fails as stated: with caching enabled and the fingerprint in the cache,
    a call with an empty candidate list returns the cached response. *)
Lemma empty_list_answered_from_cache :
  query (ask "Same query" None) (Some []) true after_same_query
  = (inr (canned GEMINI (ask "Same query" None)), after_same_query).
Proof. vm_compute. reflexivity. Qed.

(** C6 on a fresh router with caching enabled and nothing cached. *)
Lemma query_no_providers_witness :
  query (ask "Test" None) (Some []) true (boot [Raises "unused"])
  = (inl (RuntimeError "No providers available"), boot [Raises "unused"]).
Proof.
  refine (proj1 (query_no_providers (ask "Test" None) true (boot [Raises "unused"]) _)).
  right. split; vm_compute; reflexivity.
Defined.

(** X4 on [fallback_to_claude]: the backends invoked are the first two of the
    default order. *)
Lemma query_invokes_initial_segment_witness :
  target <$> events_since (boot [Raises "Failed"]) fallback_to_claude.2
  `prefix_of` [GEMINI; CLAUDE; OPENAI].
Proof.
  refine (proj1 (proj2 (query_invokes_initial_segment (ask "Test" None) None true
                          (boot [Raises "Failed"]) _))).
  vm_compute. reflexivity.
Defined.

(** X6 on a session whose first call fails on all three backends and whose
    second is answered by GEMINI. *)
Lemma counters_count_invocations_witness :
  requests_failed (metrics (run fail_then_answer (boot outage)) GEMINI)
  = Z.of_nat (length (failures_of GEMINI (history (run fail_then_answer (boot outage)))))
  /\ requests_success (metrics (run fail_then_answer (boot outage)) GEMINI)
     = Z.of_nat (length (answers_of GEMINI (history (run fail_then_answer (boot outage)))))
  /\ requests_total (metrics (run fail_then_answer (boot outage)) GEMINI)
     = Z.of_nat (length (answers_of GEMINI (history (run fail_then_answer (boot outage))))).
Proof.
  apply (counters_count_invocations fail_then_answer "2025-01-01T00:00:00" outage GEMINI).
  vm_compute. reflexivity.
Defined.

(** X8 on the same session: the error of the outage is still the last one. *)
Lemma last_error_is_latest_failure_witness :
  last_error (metrics (run fail_then_answer (boot outage)) GEMINI)
  = last (failures_of GEMINI (history (run fail_then_answer (boot outage)))).
Proof.
  apply (last_error_is_latest_failure fail_then_answer "2025-01-01T00:00:00" outage GEMINI).
  vm_compute. reflexivity.
Defined.

(** X13 on [after_same_query]: once cleared, the same query goes to GEMINI. *)
Lemma clear_cache_forces_invocation_witness :
  head (events_since (clear_cache after_same_query)
          (query (ask "Same query" None) (Some [GEMINI; CLAUDE]) true
             (clear_cache after_same_query)).2)
  = Some (Invoked GEMINI (ask "Same query" None)
            (backend_query GEMINI (ask "Same query" None) (world after_same_query)).1).
Proof.
  refine (proj2 (proj2 (clear_cache_forces_invocation (ask "Same query" None) GEMINI
                          [CLAUDE] true after_same_query _))).
  right. vm_compute. reflexivity.
Defined.

(** X15 on [restarted]: the failure saved before the restart is still
    counted, with those of the new run on top. *)
Lemma restart_continues_counters_witness :
  requests_failed (metrics restarted GEMINI)
  = requests_failed (metrics after_failed_call GEMINI)
    + Z.of_nat (length (failures_of GEMINI (history restarted))).
Proof.
  refine (proj1 (proj2 (proj2 (restart_continues_counters after_failed_call
                                 fail_then_answer "2025-01-02T00:00:00" outage GEMINI _)))).
  vm_compute. reflexivity.
Defined.

(** X18 on [short_session] over the installed backends. *)
Lemma stock_router_records_no_failure_witness :
  requests_failed (metrics (run short_session stock) GEMINI) = 0
  /\ last_error (metrics (run short_session stock) GEMINI) = None
  /\ status (metrics (run short_session stock) GEMINI) = HEALTHY
  /\ get_cheapest_provider (World := nat) = GEMINI.
Proof.
  apply (stock_router_records_no_failure short_session "2025-01-01T00:00:00" 0%nat GEMINI).
  vm_compute. reflexivity.
Defined.

(** X19 on the installed backends: a list that starts with CLAUDE is answered
    by CLAUDE. *)
Lemma stock_query_answers_from_first_candidate_witness :
  exists r,
    (query (ask "What is AI?" None) (Some [CLAUDE; GEMINI]) true stock).1 = inr r
    /\ provider r = CLAUDE
    /\ tokens_used r = str_split_len (text (ask "What is AI?" None)) * 2 + extra_tokens CLAUDE
    /\ target <$> events_since stock
                    (query (ask "What is AI?" None) (Some [CLAUDE; GEMINI]) true stock).2
       = [CLAUDE]
    /\ requests_success
         (metrics (query (ask "What is AI?" None) (Some [CLAUDE; GEMINI]) true stock).2 CLAUDE)
       = requests_success (metrics stock CLAUDE) + 1
    /\ cache (query (ask "What is AI?" None) (Some [CLAUDE; GEMINI]) true stock).2
         !! hash (ask "What is AI?" None) = Some r.
Proof.
  refine (proj2 (stock_query_answers_from_first_candidate (ask "What is AI?" None)
                   CLAUDE [GEMINI] true stock _) _).
  - vm_compute. reflexivity.
  - right. vm_compute. reflexivity.
Defined.

(** * The embedding and the call in full *)

Section FullLaws.

Context {World : Type} `{!ProviderBackend World} `{!PyLib} `{!PyErrors}.
Implicit Types (s : @State World) (q : Query) (p : ProviderName)
               (providers rest : list ProviderName)
               (candidates : option (list ProviderName)).

Lemma Full_try_providers_hashable q providers :
  hashable q = true ->
  forall rest s,
    Full.try_providers q providers rest s = Full.lift (try_providers q providers rest s).
Proof.
  intros Hq. induction rest as [|c rest IH]; intros s; [done|].
  simpl. rewrite Hq.
  destruct (call_query c q s) as [[e|r] s1]; [|done].
  case_bool_decide; [done | apply IH].
Qed.

(** On the queries whose fingerprint can be computed, the call in full is
    the embedding the other statements are about. *)
Lemma Full_query_hashable q candidates (use_cache : bool) s :
  hashable q = true ->
  Full.query q candidates use_cache s = Full.lift (query q candidates use_cache s).
Proof.
  intros Hq. unfold Full.query, query. rewrite Hq, andb_false_r.
  destruct (if use_cache then cache s !! hash q else None); [done|].
  by apply Full_try_providers_hashable.
Qed.

Lemma Full_try_providers_unhashable q providers :
  hashable q = false ->
  forall rest s,
    (exists e, (Full.try_providers q providers rest s).1 = inl e)
    /\ cache (Full.try_providers q providers rest s).2 = cache s.
Proof.
  intros Hq. induction rest as [|c rest IH]; intros s; simpl.
  - split; [by eexists | done].
  - rewrite Hq.
    pose proof (call_query_cache c q s) as Hc.
    destruct (call_query c q s) as [[e|r] s1]; simpl in Hc.
    + case_bool_decide; simpl.
      * split; [by eexists | done].
      * destruct (IH (on_failure c e s1)) as [He Hcache].
        split; [done|]. by rewrite Hcache.
    + case_bool_decide; simpl.
      * split; [by eexists | done].
      * destruct (IH (on_failure c (hash_error q) (Full.count_success c r s1)))
          as [He Hcache].
        split; [done|]. by rewrite Hcache.
Qed.

(** X23. A query whose fingerprint cannot be computed. For a query that is
    not [hashable], [query] never returns a response and never changes the
    cache, whatever the candidates and the backends do; with caching
    enabled it leaves with the exception of [Query.hash] before any backend
    is invoked, the state untouched. *)
Theorem unhashable_query_never_answers q candidates (use_cache : bool) s :
  hashable q = false ->
  (exists e, (Full.query q candidates use_cache s).1 = inl e)
  /\ cache (Full.query q candidates use_cache s).2 = cache s
  /\ (use_cache = true ->
      Full.query q candidates use_cache s = (inl (Full.FromHash (hash_error q)), s)).
Proof.
  intros Hq. unfold Full.query. rewrite Hq. destruct use_cache; simpl.
  - split_and!; [by eexists | done | done].
  - destruct (Full_try_providers_unhashable q
                (default _get_default_providers candidates) Hq
                (default _get_default_providers candidates) s) as [He Hc].
    by split_and!.
Qed.

(** X24. An answer that cannot be stored. For a query that is not
    [hashable], in the turn of the loop where candidate [p] answers, the
    record of [p] gets one more request and one more success and the cost of
    the response, and then, the fingerprint failing, one more failure and the
    error of [Query.hash] as [last_error]: the answer is counted as a success
    and as a failure. *)
Theorem unhashable_answer_counted_twice q providers p s r s1 :
  hashable q = false ->
  call_query p q s = (inr r, s1) ->
  last providers = Some p ->
  Full.try_providers q providers [p] s
  = (inl (Full.Runtime (RuntimeError ("All providers failed: " +:+ hash_error q))),
     on_failure p (hash_error q) (Full.count_success p r s1))
  /\ requests_total (metrics (Full.try_providers q providers [p] s).2 p)
     = requests_total (metrics s p) + 1
  /\ requests_success (metrics (Full.try_providers q providers [p] s).2 p)
     = requests_success (metrics s p) + 1
  /\ requests_failed (metrics (Full.try_providers q providers [p] s).2 p)
     = requests_failed (metrics s p) + 1
  /\ last_error (metrics (Full.try_providers q providers [p] s).2 p)
     = Some (hash_error q).
Proof.
  intros Hq Hcall Hlast. simpl. rewrite Hcall, Hq.
  rewrite bool_decide_eq_true_2 by done.
  pose proof (call_query_metrics p q s) as Hm. rewrite Hcall in Hm. simpl in Hm.
  simpl. rewrite !metrics_insert_eq, Hm. by split_and!.
Qed.

End FullLaws.

(** X23 on [oversized], asked of a fresh router without the cache. *)
Lemma unhashable_query_never_answers_witness :
  hashable oversized = false
  /\ (exists e, (Full.query oversized None false (boot [])).1 = inl e)
  /\ cache (Full.query oversized None false (boot [])).2 = cache (boot []).
Proof.
  assert (hashable oversized = false) as Hq by (vm_compute; reflexivity).
  destruct (unhashable_query_never_answers oversized None false (boot []) Hq)
    as (He & Hc & _).
  split_and!.
  - exact Hq.
  - exact He.
  - exact Hc.
Defined.

(** X24 on [oversized], answered by the only candidate. *)
Lemma unhashable_answer_counted_twice_witness :
  requests_success (metrics (Full.try_providers oversized [GEMINI] [GEMINI] (boot [])).2 GEMINI)
  = requests_success (metrics (boot []) GEMINI) + 1
  /\ requests_failed (metrics (Full.try_providers oversized [GEMINI] [GEMINI] (boot [])).2 GEMINI)
     = requests_failed (metrics (boot []) GEMINI) + 1.
Proof.
  destruct (unhashable_answer_counted_twice oversized [GEMINI] GEMINI (boot [])
              (canned GEMINI oversized)
              (call_query GEMINI oversized (boot [])).2)
    as (_ & _ & Hsuccess & Hfailed & _).
  { vm_compute. reflexivity. }
  { vm_compute. reflexivity. }
  { reflexivity. }
  split.
  - exact Hsuccess.
  - exact Hfailed.
Defined.
